(** * lina: order filter resolver and NL-to-query bridge (src/server.js)

    A shallow embedding of [resolvers.orders], [generateGraphQLQuery] and the
    two POST handlers of src/server.js, with the properties of the
    specification stated and settled against it. *)

From Stdlib Require Import List String Ascii ZArith NArith Bool Lia.
From Equations Require Import Equations.
Import ListNotations.

Local Open Scope Z_scope.

(** ** JavaScript strings and completions *)

(** A JavaScript string is a sequence of UTF-16 code units. *)
Definition jsstring := list N.

(** Code units of an ASCII literal. *)
Definition js (s : string) : jsstring :=
  map N_of_ascii (list_ascii_of_string s).

Definition jsstring_eqb (a b : jsstring) : bool :=
  if list_eq_dec N.eq_dec a b then true else false.

(** The errors that the modelled code can meet: the [TypeError] the engine
    raises on a property access through [undefined]/[null] or on a call of
    a non-function, and the error object with which an HTTP call made
    through axios rejects. *)
Inductive JSError :=
| TypeError
| AxiosError (message : jsstring).

(** Outcome of evaluating a statement list: normal completion with a value,
    or an abrupt completion carrying the thrown error. *)
Inductive Completion (A : Type) :=
| Normal (a : A)
| Throw (e : JSError).
Arguments Normal {A} a.
Arguments Throw {A} e.

Definition bind {A B} (c : Completion A) (k : A -> Completion B) : Completion B :=
  match c with
  | Normal a => k a
  | Throw e => Throw e
  end.

Declare Scope js_scope.
Delimit Scope js_scope with js.
Notation "x <- c ;; k" := (bind c (fun x => k))
  (at level 100, c at next level, right associativity) : js_scope.
Local Open Scope js_scope.

(** [try { body } catch (error) { handler }]. *)
Definition try_catch {A} (body : Completion A) (handler : JSError -> Completion A)
  : Completion A :=
  match body with
  | Normal a => Normal a
  | Throw e => handler e
  end.

(** ** Data model *)

(** [enum Status] of the GraphQL schema (server.js, lines 16-24). *)
Inductive Status :=
| open | closed | picking | picked | packed | shipped | cancelled.

Definition Status_eqb (a b : Status) : bool :=
  match a, b with
  | open, open | closed, closed | picking, picking | picked, picked
  | packed, packed | shipped, shipped | cancelled, cancelled => true
  | _, _ => false
  end.

(** A [Date] object: a time value in milliseconds since the epoch, or the
    Invalid Date (time value NaN) that [new Date(s)] yields when [s] does
    not parse.  [new Date(s)] never throws on a string. *)
Inductive JSDate :=
| Date_ms (t : Z)
| InvalidDate.

(** [input FilterInput] (server.js, lines 65-73).  Every field is optional:
    [None] stands for a field that is absent or [null]. *)
Module FilterInput.
Record t := mk {
  client_name : option jsstring;
  status : option (list Status);
  created_at_start : option jsstring;
  created_at_end : option jsstring;
  closed_at_start : option jsstring;
  closed_at_end : option jsstring;
  item_name : option jsstring
}.

(** The filter object with no field set, [{}]. *)
Definition empty : t := mk None None None None None None None.
End FilterInput.

(** The conditions that the resolver writes into the store query. *)

(** [{ $regex: r, $options: o }] *)
Record RegexCond := { regex : jsstring; options : jsstring }.

(** The object bound to a timestamp field.  The resolver creates it as
    [{ $gte: d }] and may later add [$lte] to it, so [$gte] is always there. *)
Record RangeCond := { gte : JSDate; lte : option JSDate }.

(** The [query] object of [resolvers.orders]: the keys the resolver may
    set, each absent ([None]) until it is assigned.
    [status] holds the list of [{ $in: list }]. *)
Module Query.
Record t := mk {
  status : option (list Status);
  client_name : option RegexCond;
  created_at : option RangeCond;
  closed_at : option RangeCond;
  items_name : option RegexCond
}.

(** [const query = {}] *)
Definition empty : t := mk None None None None None.

Definition set_status (q : t) (v : list Status) : t :=
  mk (Some v) (client_name q) (created_at q) (closed_at q) (items_name q).
Definition set_client_name (q : t) (v : RegexCond) : t :=
  mk (status q) (Some v) (created_at q) (closed_at q) (items_name q).
Definition set_created_at (q : t) (v : RangeCond) : t :=
  mk (status q) (client_name q) (Some v) (closed_at q) (items_name q).
Definition set_closed_at (q : t) (v : RangeCond) : t :=
  mk (status q) (client_name q) (created_at q) (Some v) (items_name q).
Definition set_items_name (q : t) (v : RegexCond) : t :=
  mk (status q) (client_name q) (created_at q) (closed_at q) (Some v).
End Query.

(** ** Filter Translator: the query-building part of [resolvers.orders] *)

(** Truthiness of an optional string field: [undefined], [null] and the
    empty string are falsy.  Returns the string when it is truthy. *)
Definition truthy (v : option jsstring) : option jsstring :=
  match v with
  | Some (c :: s) => Some (c :: s)
  | _ => None
  end.

(** [obj.$lte = d] where [obj] is the current value of a timestamp key of
    [query]: a TypeError when the key was never assigned. *)
Definition assign_lte (obj : option RangeCond) (d : JSDate) : Completion RangeCond :=
  match obj with
  | None => Throw TypeError
  | Some r => Normal {| gte := gte r; lte := Some d |}
  end.

Section Translator.

(** [new Date(s)] for a string [s]: the date parser of the JavaScript
    engine, which is not part of the repository. *)
Variable Date_new : jsstring -> JSDate.

(** server.js, lines 86-132: the statements that build [query]. *)
Definition orders_query (filter : option FilterInput.t) : Completion Query.t :=
  let query := Query.empty in
  match filter with
  | None => Normal query
  | Some filter =>
    (* an array is truthy, also when it is empty *)
    let query :=
      match FilterInput.status filter with
      | Some l => Query.set_status query l
      | None => query
      end in
    let query :=
      match truthy (FilterInput.client_name filter) with
      | Some s => Query.set_client_name query {| regex := s; options := js "i" |}
      | None => query
      end in
    let query :=
      match truthy (FilterInput.created_at_start filter) with
      | Some s => Query.set_created_at query {| gte := Date_new s; lte := None |}
      | None => query
      end in
    query <-
      match truthy (FilterInput.created_at_end filter) with
      | Some s =>
        r <- assign_lte (Query.created_at query) (Date_new s) ;;
        Normal (Query.set_created_at query r)
      | None => Normal query
      end ;;
    let query :=
      match truthy (FilterInput.closed_at_start filter) with
      | Some s => Query.set_closed_at query {| gte := Date_new s; lte := None |}
      | None => query
      end in
    query <-
      match truthy (FilterInput.closed_at_end filter) with
      | Some s =>
        r <- assign_lte (Query.closed_at query) (Date_new s) ;;
        Normal (Query.set_closed_at query r)
      | None => Normal query
      end ;;
    let query :=
      match truthy (FilterInput.item_name filter) with
      | Some s => Query.set_items_name query {| regex := s; options := js "i" |}
      | None => query
      end in
    Normal query
  end.

End Translator.

(** ** Orders and the store's reading of a query *)

Module Item.
(** Modelled from the spec: the element of [Order.items] (spec section 3,
    [type Item] of the schema); the module ./models/order.model that
    declares it is not available. *)
Record t := mk {
  sku : jsstring;
  name : jsstring;
  total_qty : Z;
  remaining_qty : Z
}.
End Item.

Module Order.
(** Modelled from the spec: the stored Order document (spec section 3);
    the module ./models/order.model, which declares it, is not available.
    Timestamps
    are time values in milliseconds; [closed_at] is null until the order
    closes.  The shipping address and the shipments, which no filter
    reads, are left out. *)
Record t := mk {
  client_name : jsstring;
  code : Z;
  status : Status;
  created_at : Z;
  closed_at : option Z;
  items : list Item.t
}.
End Order.

(** *** Strings as the store sees them

    The driver sends a JavaScript string to the store in UTF-8, and the
    store compares characters, not code units: a surrogate pair is one
    character, and a surrogate without its partner is sent as U+FFFD. *)

Definition is_high_surrogate (c : N) : bool := ((55296 <=? c) && (c <=? 56319))%N.
Definition is_low_surrogate (c : N) : bool := ((56320 <=? c) && (c <=? 57343))%N.

(** The code points of a string. *)
Fixpoint code_points (s : jsstring) : list N :=
  match s with
  | [] => []
  | c :: s' =>
    if is_high_surrogate c then
      match s' with
      | d :: s'' =>
        if is_low_surrogate d
        then (65536 + (c - 55296) * 1024 + (d - 56320))%N :: code_points s''
        else 65533%N :: code_points s'
      | [] => [65533%N]
      end
    else if is_low_surrogate c then 65533%N :: code_points s'
    else c :: code_points s'
  end.

(** *** Regular expressions

    The store matches [$regex] with a Perl-compatible engine.  The part
    modelled here is the one the properties need: patterns made of
    ordinary characters and the wildcard [.], searched anywhere in the
    subject, whatever the subject, with option [i] (caseless) or no option.
    On a pattern with another metacharacter or a NUL, and on other options,
    [regex_search] answers [None]: no verdict is claimed. *)

Inductive Atom :=
| Lit (c : N)   (* an ordinary character, matching itself *)
| AnyChar.      (* [.]: any character but a line feed *)

(** The characters with a special meaning in a pattern:
    [\ ^ $ . [ ] | ( ) ? * + { }]. *)
Definition is_metachar (c : N) : bool :=
  existsb (N.eqb c) (js "\^$.[]|()?*+{}").

(** An ordinary character of a pattern: not special, and not NUL, which
    the store refuses in a pattern. *)
Definition is_ordinary (c : N) : bool :=
  negb (c =? 0)%N && negb (is_metachar c).

Definition parse_atom (c : N) : option Atom :=
  if (c =? 46)%N then Some AnyChar
  else if is_ordinary c then Some (Lit c)
  else None.

Fixpoint parse_pattern (p : list N) : option (list Atom) :=
  match p with
  | [] => Some []
  | c :: p' =>
    match parse_atom c, parse_pattern p' with
    | Some a, Some l => Some (a :: l)
    | _, _ => None
    end
  end.

Definition parse_options (o : jsstring) : option bool :=
  match o with
  | [] => Some false
  | [105%N] => Some true     (* "i" *)
  | _ => None
  end.

(** ASCII case folding, [A-Z] to [a-z]: the folding of the engine on the
    strings of the examples below. *)
Definition to_lower (c : N) : N :=
  if ((65 <=? c) && (c <=? 90))%N then (c + 32)%N else c.

(** *** Verdicts

    What the document store (an external collaborator, spec section 1)
    answers for the query objects the resolver can build, document by
    document.  [Some true]: the store returns the document; [Some false]:
    it does not; [None]: the model does not tell (a pattern outside the
    fragment above, or an Invalid Date as a bound, which the store layer
    does not accept as a date). *)

(** Conjunction of two verdicts: a document that fails one condition is
    not returned, whatever the other condition. *)
Definition verdict_and (a b : option bool) : option bool :=
  match a, b with
  | Some false, _ | _, Some false => Some false
  | Some true, Some true => Some true
  | _, _ => None
  end.

(** Disjunction of two verdicts. *)
Definition verdict_or (a b : option bool) : option bool :=
  match a, b with
  | Some true, _ | _, Some true => Some true
  | Some false, Some false => Some false
  | _, _ => None
  end.

(** An absent key imposes nothing. *)
Definition on_key {C} (c : option C) (test : C -> option bool) : option bool :=
  match c with
  | None => Some true
  | Some c => test c
  end.

(** [{ $in: l }] on the enum field. *)
Definition match_in (l : list Status) (s : Status) : option bool :=
  Some (existsb (Status_eqb s) l).

(** [{ $gte: a }] or [{ $gte: a, $lte: b }] on a timestamp field; a null
    field satisfies no comparison with a date. *)
Definition match_range (r : RangeCond) (v : option Z) : option bool :=
  match gte r, lte r with
  | Date_ms a, None =>
    Some (match v with Some t => a <=? t | None => false end)
  | Date_ms a, Some (Date_ms b) =>
    Some (match v with Some t => (a <=? t) && (t <=? b) | None => false end)
  | _, _ => None
  end.

Section Store.

(** The case folding of the store's regular expression engine, which is
    not part of the repository: under option [i] two characters match
    when they fold to the same character. *)
Variable casefold : N -> N.

Definition atom_matches (caseless : bool) (a : Atom) (c : N) : bool :=
  match a with
  | Lit l => if caseless then (casefold l =? casefold c)%N else (l =? c)%N
  | AnyChar => negb (c =? 10)%N
  end.

(** The atoms match a prefix of the subject. *)
Fixpoint match_here (caseless : bool) (p : list Atom) (s : list N) : bool :=
  match p, s with
  | [], _ => true
  | a :: p', c :: s' => atom_matches caseless a c && match_here caseless p' s'
  | _ :: _, [] => false
  end.

(** The atoms match at some position of the subject (unanchored search). *)
Fixpoint search (caseless : bool) (p : list Atom) (s : list N) : bool :=
  match_here caseless p s ||
  match s with
  | [] => false
  | _ :: s' => search caseless p s'
  end.

Definition regex_search (c : RegexCond) (subject : jsstring) : option bool :=
  match parse_pattern (code_points (regex c)), parse_options (options c) with
  | Some p, Some caseless => Some (search caseless p (code_points subject))
  | _, _ => None
  end.

(** A condition on the dotted path [items.name]: some element of the array
    satisfies it. *)
Fixpoint match_any_item (c : RegexCond) (l : list Item.t) : option bool :=
  match l with
  | [] => Some false
  | i :: l' => verdict_or (regex_search c (Item.name i)) (match_any_item c l')
  end.

(** The query is the conjunction of the conditions of its keys. *)
Definition matches (q : Query.t) (o : Order.t) : option bool :=
  verdict_and (on_key (Query.status q) (fun l => match_in l (Order.status o)))
  (verdict_and (on_key (Query.client_name q) (fun c => regex_search c (Order.client_name o)))
  (verdict_and (on_key (Query.created_at q) (fun r => match_range r (Some (Order.created_at o))))
  (verdict_and (on_key (Query.closed_at q) (fun r => match_range r (Order.closed_at o)))
               (on_key (Query.items_name q) (fun c => match_any_item c (Order.items o)))))).

(** The reading of "case-insensitive substring" of the specification: the
    characters of the needle occur in a row in the text, once both are
    case-folded. *)
Definition ci_substring (needle text : jsstring) : Prop :=
  exists pre post,
    map casefold (code_points text) = pre ++ map casefold (code_points needle) ++ post.

End Store.

(** The runtime's answers on the date strings used in the examples below:
    a date-only ISO string is midnight UTC of that day. *)
Definition Date_sample (s : jsstring) : JSDate :=
  if jsstring_eqb s (js "2024-01-01") then Date_ms 1704067200000
  else if jsstring_eqb s (js "2024-01-31") then Date_ms 1706659200000
  else InvalidDate.

(** ** NL-to-Query Bridge: [generateGraphQLQuery] *)

Definition LF : N := 10%N.
Definition BACKTICK : N := 96%N.

(** WhiteSpace and LineTerminator code units, which [String.prototype.trim]
    removes: TAB, LF, VT, FF, CR, SP, NBSP, U+1680, U+2000-U+200A, LS, PS,
    U+202F, U+205F, U+3000 and U+FEFF. *)
Definition is_whitespace (c : N) : bool :=
  (((9 <=? c) && (c <=? 13)) || (c =? 32) || (c =? 160) || (c =? 5760)
   || ((8192 <=? c) && (c <=? 8202)) || (c =? 8232) || (c =? 8233)
   || (c =? 8239) || (c =? 8287) || (c =? 12288) || (c =? 65279))%N.

Fixpoint trim_start (s : jsstring) : jsstring :=
  match s with
  | [] => []
  | c :: s' => if is_whitespace c then trim_start s' else s
  end.

Definition trim_end (s : jsstring) : jsstring := rev (trim_start (rev s)).

(** [s.trim()] *)
Definition trim (s : jsstring) : jsstring := trim_end (trim_start s).

(** [pat] is a prefix of [s]. *)
Fixpoint starts_with (pat s : jsstring) : bool :=
  match pat, s with
  | [], _ => true
  | p :: pat', c :: s' => (p =? c)%N && starts_with pat' s'
  | _ :: _, [] => false
  end.

(** [s.replace(/pat/g, rep)] for a pattern [pat] that is a non-empty string
    of ordinary characters: the occurrences are found from left to right,
    each search resuming after the previous occurrence. *)
Equations? replace_all (pat rep s : jsstring) : jsstring by wf (List.length s) lt :=
  replace_all pat rep [] := [];
  replace_all pat rep (c :: s') with starts_with pat (c :: s') => {
    | true := rep ++ replace_all pat rep (skipn (List.length pat - 1) s');
    | false := c :: replace_all pat rep s' }.
Proof.
  all: simpl; try rewrite length_skipn; lia.
Qed.

(** server.js, lines 205-208: the three replacements. *)
Definition strip_fences (graphqlQuery : jsstring) : jsstring :=
  let graphqlQuery := replace_all (js "```graphql") [] graphqlQuery in
  let graphqlQuery := replace_all (js "```") [] graphqlQuery in
  replace_all [LF] (js " ") graphqlQuery.

(** server.js, lines 201-208: the cleaning of the completion text
    [content], trimmed first and then stripped. *)
Definition clean_query (content : jsstring) : jsstring :=
  strip_fences (trim content).

(** Values that come out of JSON bodies. *)
#[local] Unset Elimination Schemes.
Inductive JSValue :=
| JUndefined
| JNull
| JBool (b : bool)
| JNumber (z : Z)
| JString (s : jsstring)
| JArray (l : list JSValue)
| JObject (fields : list (jsstring * JSValue)).
#[local] Set Elimination Schemes.

(** [!v] is false exactly on the truthy values. *)
Definition is_truthy (v : JSValue) : bool :=
  match v with
  | JUndefined | JNull | JBool false | JNumber 0 | JString [] => false
  | _ => true
  end.

Fixpoint lookup (key : jsstring) (fields : list (jsstring * JSValue)) : option JSValue :=
  match fields with
  | [] => None
  | (k, v) :: rest => if jsstring_eqb k key then Some v else lookup key rest
  end.

(** [v.key] for one of the keys the code reads ([userInput], [choices],
    [message], [content]), none of which is a built-in property: a
    TypeError through [undefined] or [null], [undefined] when the value has
    no such property. *)
Definition get_prop (v : JSValue) (key : jsstring) : Completion JSValue :=
  match v with
  | JUndefined | JNull => Throw TypeError
  | JObject fields =>
    Normal (match lookup key fields with Some x => x | None => JUndefined end)
  | _ => Normal JUndefined
  end.

(** [v[0]] *)
Definition get_index0 (v : JSValue) : Completion JSValue :=
  match v with
  | JUndefined | JNull => Throw TypeError
  | JArray (x :: _) => Normal x
  | JString (c :: _) => Normal (JString [c])
  | JObject fields =>
    Normal (match lookup (js "0") fields with Some x => x | None => JUndefined end)
  | _ => Normal JUndefined
  end.

(** [v.trim()]: only a string has a callable [trim]. *)
Definition call_trim (v : JSValue) : Completion jsstring :=
  match v with
  | JString s => Normal (trim s)
  | _ => Throw TypeError
  end.

(** What the handlers do that is visible outside. *)
Inductive Event :=
| CompletionRequest (userInput : JSValue)       (* POST to the completion API *)
| GraphQLRequest (query : JSValue)              (* POST to /graphql *)
| ConsoleError (label : jsstring) (e : JSError) (* console.error(label, e.message) *)
| ConsoleLog (label : jsstring) (v : JSValue).  (* console.log(label, v) *)

(** The services called through [axios.post]: each answers with the parsed
    body [response.data], or the call rejects with an error. *)
Record Services := {
  completion_api : JSValue -> Completion JSValue;
  graphql_api : JSValue -> Completion JSValue
}.

(** server.js, lines 200-210, on the body of the completion response. *)
Definition extract_query (data : JSValue) : Completion JSValue :=
  choices <- get_prop data (js "choices") ;;
  choice <- get_index0 choices ;;
  message <- get_prop choice (js "message") ;;
  content <- get_prop message (js "content") ;;
  graphqlQuery <- call_trim content ;;
  let graphqlQuery := strip_fences graphqlQuery in
  Normal (JString graphqlQuery).

(** server.js, lines 171-215.  The result is the value the returned promise
    settles with, together with the events in order. *)
Definition generateGraphQLQuery (w : Services) (userInput : JSValue)
  : Completion JSValue * list Event :=
  let body :=
    data <- completion_api w userInput ;;
    extract_query data in
  match body with
  | Normal v => (Normal v, [CompletionRequest userInput])
  | Throw error =>
    (Normal JNull,
     [CompletionRequest userInput;
      ConsoleError (js "Error generating GraphQL query:") error])
  end.

(** ** HTTP handlers *)

Record Response := { status_code : Z; body : JSValue }.

Definition error_body (msg : string) : JSValue :=
  JObject [(js "error", JString (js msg))].

(** [res.send(b)] answers with status 200 unless [res.status] was called. *)
Definition send (b : JSValue) : Response := {| status_code := 200; body := b |}.
Definition status_send (code : Z) (b : JSValue) : Response :=
  {| status_code := code; body := b |}.

(** [app.post("/generate-query", ...)], server.js lines 152-168. *)
Definition generate_query (w : Services) (req_body : JSValue)
  : Completion Response * list Event :=
  match get_prop req_body (js "userInput") with
  | Throw e => (Throw e, [])
  | Normal userInput =>
    if negb (is_truthy userInput) then
      (Normal (status_send 400 (error_body "User input is required")), [])
    else
      match generateGraphQLQuery w userInput with
      | (Throw e, evs) => (Throw e, evs)
      | (Normal graphqlQuery, evs) =>
        if negb (is_truthy graphqlQuery) then
          (Normal (status_send 500 (error_body "Failed to generate GraphQL query")), evs)
        else
          (Normal (send (JObject [(js "graphqlQuery", graphqlQuery)])), evs)
      end
  end.

(** [app.post("/fetch-orders", ...)], server.js lines 217-249. *)
Definition fetch_orders (w : Services) (req_body : JSValue)
  : Completion Response * list Event :=
  match get_prop req_body (js "userInput") with
  | Throw e => (Throw e, [])
  | Normal userInput =>
    if negb (is_truthy userInput) then
      (Normal (status_send 400 (error_body "User input is required")), [])
    else
      let failed error evs :=
        (Normal (status_send 500 (error_body "Failed to fetch orders")),
         evs ++ [ConsoleError (js "Error in fetching orders:") error]) in
      match generateGraphQLQuery w userInput with
      | (Throw error, evs) => failed error evs
      | (Normal graphqlQuery, evs) =>
        if negb (is_truthy graphqlQuery) then
          (Normal (status_send 500 (error_body "Failed to generate GraphQL query")), evs)
        else
          let evs := evs ++ [ConsoleLog (js "Generated GraphQL Query:") graphqlQuery;
                             GraphQLRequest graphqlQuery] in
          match graphql_api w graphqlQuery with
          | Throw error => failed error evs
          | Normal data => (Normal (send (JObject [(js "data", data)])), evs)
          end
      end
  end.

(** ** Vocabulary of the statements *)

(** The filter in which a string field holding the empty string is taken
    out, the other fields unchanged. *)
Definition drop_blank (v : option jsstring) : option jsstring :=
  match v with
  | Some [] => None
  | _ => v
  end.

Definition blanks_absent (f : FilterInput.t) : FilterInput.t :=
  FilterInput.mk
    (drop_blank (FilterInput.client_name f))
    (FilterInput.status f)
    (drop_blank (FilterInput.created_at_start f))
    (drop_blank (FilterInput.created_at_end f))
    (drop_blank (FilterInput.closed_at_start f))
    (drop_blank (FilterInput.closed_at_end f))
    (drop_blank (FilterInput.item_name f)).

(** An end bound that is set comes with its start bound. *)
Definition end_has_start (start end_ : option jsstring) : bool :=
  match truthy end_, truthy start with
  | Some _, None => false
  | _, _ => true
  end.

(** Both timestamp fields are in that case. *)
Definition bounds_paired (f : FilterInput.t) : bool :=
  end_has_start (FilterInput.created_at_start f) (FilterInput.created_at_end f)
  && end_has_start (FilterInput.closed_at_start f) (FilterInput.closed_at_end f).

(** A string field that sets nothing: absent, null or empty. *)
Definition unset (v : option jsstring) : Prop := truthy v = None.

(** Filters in which nothing but the named fields is set. *)
Definition only_status (f : FilterInput.t) : Prop :=
  unset (FilterInput.client_name f) /\
  unset (FilterInput.created_at_start f) /\ unset (FilterInput.created_at_end f) /\
  unset (FilterInput.closed_at_start f) /\ unset (FilterInput.closed_at_end f) /\
  unset (FilterInput.item_name f).

Definition only_created_at (f : FilterInput.t) : Prop :=
  FilterInput.status f = None /\
  unset (FilterInput.client_name f) /\
  unset (FilterInput.closed_at_start f) /\ unset (FilterInput.closed_at_end f) /\
  unset (FilterInput.item_name f).

Definition only_client_name (f : FilterInput.t) : Prop :=
  FilterInput.status f = None /\
  unset (FilterInput.created_at_start f) /\ unset (FilterInput.created_at_end f) /\
  unset (FilterInput.closed_at_start f) /\ unset (FilterInput.closed_at_end f) /\
  unset (FilterInput.item_name f).

Definition only_item_name (f : FilterInput.t) : Prop :=
  FilterInput.status f = None /\
  unset (FilterInput.client_name f) /\
  unset (FilterInput.created_at_start f) /\ unset (FilterInput.created_at_end f) /\
  unset (FilterInput.closed_at_start f) /\ unset (FilterInput.closed_at_end f).

(** The range object that the two bounds of one timestamp field leave in
    the query, when the statements of that field complete normally. *)
Definition merged_range (Date_new : jsstring -> JSDate) (start end_ : option jsstring)
  : option RangeCond :=
  match truthy start with
  | Some s => Some {| gte := Date_new s; lte := option_map Date_new (truthy end_) |}
  | None => None
  end.

(** The condition a name field leaves in the query. *)
Definition name_cond (v : option jsstring) : option RegexCond :=
  option_map (fun s => {| regex := s; options := js "i" |}) (truthy v).

(** A string of ordinary characters: no metacharacter and no NUL in it. *)
Definition plain (s : jsstring) : bool := forallb is_ordinary (code_points s).

(** The reading of "every occurrence of [pat] is replaced by [rep]": the
    occurrences are taken from left to right without overlap, each one
    gives way to [rep], every other character stays, and what was written
    is not searched again. *)
Inductive Replaced (pat rep : jsstring) : jsstring -> jsstring -> Prop :=
| Replaced_nil : Replaced pat rep [] []
| Replaced_hit s out :
    Replaced pat rep s out -> Replaced pat rep (pat ++ s) (rep ++ out)
| Replaced_keep c s out :
    starts_with pat (c :: s) = false ->
    Replaced pat rep s out -> Replaced pat rep (c :: s) (c :: out).

(** [pat] occurs somewhere in [s]. *)
Fixpoint occurs (pat s : jsstring) : bool :=
  starts_with pat s ||
  match s with
  | [] => false
  | _ :: s' => occurs pat s'
  end.

(** The string holds three backticks in a row somewhere. *)
Definition has_fence (s : jsstring) : bool := occurs (js "```") s.

(** The string begins, or ends, with a whitespace character. *)
Definition starts_with_ws (s : jsstring) : bool :=
  match s with
  | c :: _ => is_whitespace c
  | [] => false
  end.

Definition ends_with_ws (s : jsstring) : bool := starts_with_ws (rev s).

(** [s.replace(/\n/g, " ")], character by character. *)
Definition lf_to_space (c : N) : N := if (c =? LF)%N then 32%N else c.

(** Number of backticks the string begins with. *)
Fixpoint leading_backticks (s : jsstring) : nat :=
  match s with
  | c :: s' => if (c =? BACKTICK)%N then S (leading_backticks s') else O
  | [] => O
  end.

(** The body of a well-formed completion response whose text is [content]:
    [{ choices: [ { message: { content } } ] }]. *)
Definition completion_body (content : jsstring) : JSValue :=
  JObject [(js "choices",
            JArray [JObject [(js "message",
                              JObject [(js "content", JString content)])]])].

(** The response body is an object with an [error] field. *)
Definition has_error_field (b : JSValue) : bool :=
  match b with
  | JObject fields =>
    match lookup (js "error") fields with
    | Some _ => true
    | None => false
    end
  | _ => false
  end.

(** Sample inputs. *)
Definition only_created_at_end : FilterInput.t :=
  FilterInput.mk None None None (Some (js "2024-01-31")) None None None.
Definition only_closed_at_end : FilterInput.t :=
  FilterInput.mk None None None None None (Some (js "2024-01-31")) None.
Definition bad_created_at_start : FilterInput.t :=
  FilterInput.mk None None (Some (js "not-a-date")) None None None None.
Definition january : FilterInput.t :=
  FilterInput.mk None None (Some (js "2024-01-01")) (Some (js "2024-01-31")) None None None.
Definition fenced_completion : jsstring :=
  js "```graphql" ++ [LF] ++ js "query { orders { id } }" ++ [LF] ++ js "```".
Definition acme_corp : Order.t :=
  Order.mk (js "Acme Corp") 7 shipped 1704067200000 None
           [Item.mk (js "SKU-1") (js "Blue Widget") 3 1].
Definition abc_order : Order.t :=
  Order.mk (js "abc") 8 open 1704067200000 None [Item.mk (js "SKU-2") (js "axc") 1 1].
Definition client_a_dot_c : FilterInput.t :=
  FilterInput.mk (Some (js "a.c")) None None None None None None.
Definition item_a_dot_c : FilterInput.t :=
  FilterInput.mk None None None None None None (Some (js "a.c")).
Definition client_acme : FilterInput.t :=
  FilterInput.mk (Some (js "acme")) None None None None None None.
Definition item_widget : FilterInput.t :=
  FilterInput.mk None None None None None None (Some (js "WIDGET")).
Definition json_fenced_completion : jsstring :=
  js "```json" ++ [LF] ++ js "query { orders { id } }" ++ [LF] ++ js "```".
Definition multiline_completion : jsstring :=
  js "  query {" ++ [LF] ++ js "  orders { id }" ++ [LF] ++ js "}" ++ [LF].
Definition cafe_acme : Order.t :=
  Order.mk (js "Caf" ++ [233%N] ++ js " Acme") 10 open 1704067200000 None
           [Item.mk (js "SKU-3") ([55357%N; 56550%N] ++ js " widget") 2 2].
Definition status_with_lone_end : FilterInput.t :=
  FilterInput.mk None (Some [shipped; cancelled]) None (Some (js "2024-01-31")) None None None.
Definition empty_status_with_lone_end : FilterInput.t :=
  FilterInput.mk None (Some []) None (Some (js "2024-01-31")) None None None.
Definition failing_services : Services :=
  {| completion_api := fun _ => Throw (AxiosError (js "Request failed with status code 401"));
     graphql_api := fun _ => Throw (AxiosError (js "connect ECONNREFUSED")) |}.

(** ** The resolver as a whole *)

(** What [resolvers.orders] does that is visible outside. *)
Inductive ResolverEvent :=
| LogQuery (query : Query.t)    (* console.log("Generated MongoDB query:", query) *)
| StoreFind (query : Query.t).  (* Order.find(query) *)

(** How [Order.find(query)] settles: with the documents found, or with an
    error of the store. *)
Inductive StoreOutcome :=
| Found (docs : list Order.t)
| StoreError (message : jsstring).

(** How the promise returned by [resolvers.orders] settles. *)
Inductive ResolverOutcome :=
| Resolved (docs : list Order.t)
| RejectedWith (e : JSError)
| RejectedByStore (message : jsstring).

Section Resolver.

(** [new Date(s)], as above. *)
Variable Date_new : jsstring -> JSDate.

(** [Order.find]: the model of the store adapter, which is not part of
    the file. *)
Variable Order_find : Query.t -> StoreOutcome.

(** server.js, lines 85-136. *)
Definition orders (filter : option FilterInput.t)
  : ResolverOutcome * list ResolverEvent :=
  match orders_query Date_new filter with
  | Throw e => (RejectedWith e, [])
  | Normal query =>
    (match Order_find query with
     | Found docs => Resolved docs
     | StoreError message => RejectedByStore message
     end,
     [LogQuery query; StoreFind query])
  end.

End Resolver.

(** ** Further vocabulary *)

(** The filter restricted to one kind of field. *)
Definition keep_status (f : FilterInput.t) : FilterInput.t :=
  FilterInput.mk None (FilterInput.status f) None None None None None.
Definition keep_client_name (f : FilterInput.t) : FilterInput.t :=
  FilterInput.mk (FilterInput.client_name f) None None None None None None.
Definition keep_created_at (f : FilterInput.t) : FilterInput.t :=
  FilterInput.mk None None (FilterInput.created_at_start f) (FilterInput.created_at_end f)
                 None None None.
Definition keep_closed_at (f : FilterInput.t) : FilterInput.t :=
  FilterInput.mk None None None None
                 (FilterInput.closed_at_start f) (FilterInput.closed_at_end f) None.
Definition keep_item_name (f : FilterInput.t) : FilterInput.t :=
  FilterInput.mk None None None None None None (FilterInput.item_name f).

(** The filter with its [client_name] replaced. *)
Definition with_client_name (f : FilterInput.t) (v : option jsstring) : FilterInput.t :=
  FilterInput.mk v (FilterInput.status f)
                 (FilterInput.created_at_start f) (FilterInput.created_at_end f)
                 (FilterInput.closed_at_start f) (FilterInput.closed_at_end f)
                 (FilterInput.item_name f).

Definition only_closed_at (f : FilterInput.t) : Prop :=
  FilterInput.status f = None /\
  unset (FilterInput.client_name f) /\
  unset (FilterInput.created_at_start f) /\ unset (FilterInput.created_at_end f) /\
  unset (FilterInput.item_name f).

(** The characters that the cleaning may delete or write: the backtick,
    the letters of "graphql", the line feed and the space. *)
Definition touched_by_cleaning (c : N) : bool :=
  existsb (N.eqb c) (js "`graphql" ++ [LF; 32%N]).

(** Further sample inputs. *)
Definition january_closed : FilterInput.t :=
  FilterInput.mk None None None None (Some (js "2024-01-01")) (Some (js "2024-01-31")) None.
Definition from_january : FilterInput.t :=
  FilterInput.mk None None (Some (js "2024-01-01")) None None None None.
Definition inverted_january : FilterInput.t :=
  FilterInput.mk None None (Some (js "2024-01-31")) (Some (js "2024-01-01")) None None None.
Definition shipped_acme_in_january : FilterInput.t :=
  FilterInput.mk (Some (js "acme")) (Some [shipped]) (Some (js "2024-01-01"))
                 (Some (js "2024-01-31")) None None (Some (js "widget")).
Definition shipped_request : list (jsstring * JSValue) :=
  [(js "userInput", JString (js "orders that are shipped"))].
Definition working_services : Services :=
  {| completion_api := fun _ => Normal (completion_body fenced_completion);
     graphql_api := fun _ => Normal (JObject [(js "data", JNull)]) |}.
Definition graphql_down_services : Services :=
  {| completion_api := fun _ => Normal (completion_body fenced_completion);
     graphql_api := fun _ => Throw (AxiosError (js "connect ECONNREFUSED")) |}.
Definition blank_completion_services : Services :=
  {| completion_api := fun _ => Normal (completion_body (js "  " ++ [LF]));
     graphql_api := fun _ => Normal JNull |}.
Definition no_choices_services : Services :=
  {| completion_api := fun _ => Normal (JObject [(js "error", JString (js "quota"))]);
     graphql_api := fun _ => Normal JNull |}.
Definition empty_store (_ : Query.t) : StoreOutcome := Found [].

(** * Properties *)

Section TranslatorFacts.

Variable Date_new : jsstring -> JSDate.

Lemma truthy_drop_blank v : truthy (drop_blank v) = truthy v.
Proof. destruct v as [[|c s]|]; reflexivity. Qed.

Lemma truthy_nonempty v s : truthy v = Some s -> v = Some s /\ s <> [].
Proof.
  destruct v as [[|c t]|]; simpl; intros H; inversion H; subst.
  split; [reflexivity | discriminate].
Qed.

(** The translator, field by field: it throws exactly when an end bound
    is set without its start bound, and otherwise returns the query made
    of the per-field conditions. *)
Lemma orders_query_unfold f :
  orders_query Date_new (Some f) =
  if bounds_paired f
  then Normal (Query.mk
                 (FilterInput.status f)
                 (name_cond (FilterInput.client_name f))
                 (merged_range Date_new (FilterInput.created_at_start f)
                               (FilterInput.created_at_end f))
                 (merged_range Date_new (FilterInput.closed_at_start f)
                               (FilterInput.closed_at_end f))
                 (name_cond (FilterInput.item_name f)))
  else Throw TypeError.
Proof.
  destruct f as [cn st cs ce ds de inm].
  unfold orders_query, bounds_paired, end_has_start, merged_range, name_cond; simpl.
  destruct st; destruct (truthy cn); destruct (truthy cs); destruct (truthy ce);
    simpl; try reflexivity;
    destruct (truthy ds); destruct (truthy de); simpl; try reflexivity;
    destruct (truthy inm); reflexivity.
Qed.

Lemma orders_query_normal f q :
  orders_query Date_new (Some f) = Normal q ->
  q = Query.mk
        (FilterInput.status f)
        (name_cond (FilterInput.client_name f))
        (merged_range Date_new (FilterInput.created_at_start f)
                      (FilterInput.created_at_end f))
        (merged_range Date_new (FilterInput.closed_at_start f)
                      (FilterInput.closed_at_end f))
        (name_cond (FilterInput.item_name f)).
Proof.
  rewrite orders_query_unfold.
  destruct (bounds_paired f); intros H; inversion H; reflexivity.
Qed.

End TranslatorFacts.

(** ** The verdicts of the store *)

Lemma verdict_and_true a b :
  verdict_and a b = Some true <-> a = Some true /\ b = Some true.
Proof.
  destruct a as [[|]|], b as [[|]|]; simpl; split;
    try (intros [? ?]); try (intros ?); try discriminate; auto.
Qed.

Lemma verdict_and_false_l b : verdict_and (Some false) b = Some false.
Proof. now destruct b as [[|]|]. Qed.

Lemma verdict_and_false_r a : verdict_and a (Some false) = Some false.
Proof. now destruct a as [[|]|]. Qed.

Lemma verdict_and_true_l x : verdict_and (Some true) x = x.
Proof. now destruct x as [[|]|]. Qed.

Lemma verdict_and_true_r x : verdict_and x (Some true) = x.
Proof. now destruct x as [[|]|]. Qed.

Lemma on_key_None {C} (test : C -> option bool) : on_key None test = Some true.
Proof. reflexivity. Qed.

Section Verdicts.

Variable casefold : N -> N.

(** A matching document satisfies the condition of every key. *)
Lemma matches_true q o :
  matches casefold q o = Some true <->
  on_key (Query.status q) (fun l => match_in l (Order.status o)) = Some true /\
  on_key (Query.client_name q)
         (fun c => regex_search casefold c (Order.client_name o)) = Some true /\
  on_key (Query.created_at q) (fun r => match_range r (Some (Order.created_at o)))
  = Some true /\
  on_key (Query.closed_at q) (fun r => match_range r (Order.closed_at o)) = Some true /\
  on_key (Query.items_name q) (fun c => match_any_item casefold c (Order.items o))
  = Some true.
Proof.
  unfold matches. rewrite !verdict_and_true. tauto.
Qed.

(** A document that fails the condition of one key does not match,
    whatever the other keys hold. *)
Lemma matches_false q o :
  on_key (Query.status q) (fun l => match_in l (Order.status o)) = Some false \/
  on_key (Query.client_name q)
         (fun c => regex_search casefold c (Order.client_name o)) = Some false \/
  on_key (Query.created_at q) (fun r => match_range r (Some (Order.created_at o)))
  = Some false \/
  on_key (Query.closed_at q) (fun r => match_range r (Order.closed_at o)) = Some false \/
  on_key (Query.items_name q) (fun c => match_any_item casefold c (Order.items o))
  = Some false ->
  matches casefold q o = Some false.
Proof.
  unfold matches.
  intros [H | [H | [H | [H | H]]]]; rewrite H;
    rewrite ?verdict_and_false_l, ?verdict_and_false_r; reflexivity.
Qed.

End Verdicts.

Lemma Status_eqb_eq a b : Status_eqb a b = true <-> a = b.
Proof. destruct a, b; simpl; split; intros H; congruence. Qed.

Lemma match_in_true l s : match_in l s = Some true <-> In s l.
Proof.
  unfold match_in. split.
  - intros H. injection H as H. apply existsb_exists in H.
    destruct H as [x [Hx Heq]]. apply Status_eqb_eq in Heq. now subst.
  - intros H. f_equal. apply existsb_exists. exists s. split; [assumption|].
    now apply Status_eqb_eq.
Qed.

Lemma match_in_false l s : ~ In s l -> match_in l s = Some false.
Proof.
  intros H. unfold match_in. f_equal.
  destruct (existsb (Status_eqb s) l) eqn:E; [| reflexivity].
  exfalso. apply H. apply existsb_exists in E.
  destruct E as [x [Hx Heq]]. apply Status_eqb_eq in Heq. now subst.
Qed.

(** A range with two valid bounds holds exactly on the closed interval. *)
Lemma match_range_closed a b t :
  match_range {| gte := Date_ms a; lte := Some (Date_ms b) |} (Some t)
  = Some ((a <=? t) && (t <=? b)).
Proof. reflexivity. Qed.

Lemma match_range_true_bounds a b t :
  match_range {| gte := Date_ms a; lte := Some (Date_ms b) |} (Some t) = Some true
  <-> a <= t <= b.
Proof.
  rewrite match_range_closed. split.
  - intros H. injection H as H. apply andb_true_iff in H. lia.
  - intros [H1 H2]. f_equal. apply andb_true_iff. lia.
Qed.

Lemma match_range_outside a b t :
  t < a \/ b < t ->
  match_range {| gte := Date_ms a; lte := Some (Date_ms b) |} (Some t) = Some false.
Proof.
  intros H. rewrite match_range_closed. f_equal. apply andb_false_iff.
  rewrite !Z.leb_gt. lia.
Qed.

(** ** Claims on the Filter Translator *)

(** C1 (as the code behaves).  With [created_at_end] set and
    [created_at_start] not set, and likewise for [closed_at], the translator
    does not produce a predicate with an upper bound: the assignment of
    [$lte] goes through the unset key and the translator ends with a
    TypeError, whatever the date parser answers. *)
Theorem C1_end_bound_alone_throws :
  forall Date_new : jsstring -> JSDate,
    orders_query Date_new (Some only_created_at_end) = Throw TypeError /\
    orders_query Date_new (Some only_closed_at_end) = Throw TypeError.
Proof. intros Date_new. split; reflexivity. Qed.

(** The same for every filter: an end bound set without its start bound
    makes the translator throw. *)
Lemma end_without_start_throws Date_new f :
  end_has_start (FilterInput.created_at_start f) (FilterInput.created_at_end f) = false \/
  end_has_start (FilterInput.closed_at_start f) (FilterInput.closed_at_end f) = false ->
  orders_query Date_new (Some f) = Throw TypeError.
Proof.
  intros H. rewrite orders_query_unfold. unfold bounds_paired.
  destruct H as [H|H]; rewrite H; [reflexivity | now rewrite andb_false_r].
Qed.

(** C2, counterexample.  The string "not-a-date" does not parse, and the
    translator given it as [created_at_start] completes normally, with the
    Invalid Date as the lower bound: no error is raised. *)
Lemma C2_unparseable_date_not_rejected :
  Date_sample (js "not-a-date") = InvalidDate /\
  orders_query Date_sample (Some bad_created_at_start)
  = Normal (Query.mk None None (Some {| gte := InvalidDate; lte := None |}) None None) /\
  ~ (exists e, orders_query Date_sample (Some bad_created_at_start) = Throw e).
Proof.
  split; [reflexivity | split; [reflexivity |]].
  intros [e He]. vm_compute in He. discriminate.
Qed.

(** C2, amended.  The translator does not validate dates.  For every filter
    in which each end bound that is set comes with its start bound, it
    completes normally whatever the date strings are, and the range of each
    timestamp field holds the values [new Date] gave for the bounds, the
    Invalid Date included. *)
Theorem C2_dates_not_validated :
  forall (Date_new : jsstring -> JSDate) (f : FilterInput.t),
    bounds_paired f = true ->
    exists q,
      orders_query Date_new (Some f) = Normal q /\
      Query.created_at q
      = merged_range Date_new (FilterInput.created_at_start f) (FilterInput.created_at_end f) /\
      Query.closed_at q
      = merged_range Date_new (FilterInput.closed_at_start f) (FilterInput.closed_at_end f).
Proof.
  intros Date_new f H. rewrite orders_query_unfold, H.
  eexists. split; [reflexivity | split; reflexivity].
Qed.

(** On the filter whose [created_at_start] is "not-a-date". *)
Lemma C2_dates_not_validated_witness :
  exists q,
    orders_query Date_sample (Some bad_created_at_start) = Normal q /\
    Query.created_at q = Some {| gte := InvalidDate; lte := None |} /\
    Query.closed_at q = None.
Proof.
  apply (C2_dates_not_validated Date_sample bad_created_at_start); reflexivity.
Defined.

(** What the translator returns when nothing but one kind of field is set. *)
Lemma merged_range_unset Date_new start end_ :
  unset start -> merged_range Date_new start end_ = None.
Proof. unfold unset, merged_range. now intros ->. Qed.

Lemma name_cond_unset v : unset v -> name_cond v = None.
Proof. unfold unset, name_cond. now intros ->. Qed.

Lemma end_has_start_unset start end_ : unset end_ -> end_has_start start end_ = true.
Proof. unfold unset, end_has_start. now intros ->. Qed.

Lemma end_has_start_set start end_ s :
  truthy start = Some s -> end_has_start start end_ = true.
Proof. unfold end_has_start. intros ->. now destruct (truthy end_). Qed.

Lemma merged_range_both Date_new start end_ s e :
  truthy start = Some s -> truthy end_ = Some e ->
  merged_range Date_new start end_
  = Some {| gte := Date_new s; lte := Some (Date_new e) |}.
Proof. unfold merged_range. now intros -> ->. Qed.




(** C6.  Without a filter argument, and with the filter in which no field
    is set, the translator returns the empty query, and the empty query
    matches every order. *)
Theorem C6_no_field_matches_all :
  forall (casefold : N -> N) (Date_new : jsstring -> JSDate) (o : Order.t),
    orders_query Date_new None = Normal Query.empty /\
    orders_query Date_new (Some FilterInput.empty) = Normal Query.empty /\
    matches casefold Query.empty o = Some true.
Proof. intros casefold Date_new o. repeat split. Qed.

(** C8 (as the code behaves).  With [status] set to shipped and cancelled
    and [created_at_end] set without [created_at_start], the translator
    does not produce the membership predicate: it ends with the TypeError
    of the assignment of [$lte], whatever the date parser answers. *)
Theorem C8_status_with_lone_end_bound_throws :
  forall Date_new : jsstring -> JSDate,
    FilterInput.status status_with_lone_end = Some [shipped; cancelled] /\
    orders_query Date_new (Some status_with_lone_end) = Throw TypeError.
Proof. intros Date_new. split; reflexivity. Qed.

(** C10 (as the code behaves).  With [status] set to the empty list and
    [created_at_end] set without [created_at_start], the translator does
    not produce the constraint over the empty set: it ends with the
    TypeError of the assignment of [$lte], whatever the date parser
    answers. *)
Theorem C10_empty_status_with_lone_end_bound_throws :
  forall Date_new : jsstring -> JSDate,
    FilterInput.status empty_status_with_lone_end = Some [] /\
    orders_query Date_new (Some empty_status_with_lone_end) = Throw TypeError.
Proof. intros Date_new. split; reflexivity. Qed.

(** ** Patterns without metacharacters *)

Lemma parse_pattern_ordinary p :
  forallb is_ordinary p = true -> parse_pattern p = Some (map Lit p).
Proof.
  induction p as [|c p IH]; simpl; [reflexivity |].
  intros H. apply andb_true_iff in H. destruct H as [Hc Hp].
  rewrite (IH Hp). unfold parse_atom. rewrite Hc.
  destruct (N.eqb_spec c 46) as [-> | _]; [discriminate Hc | reflexivity].
Qed.

Section Literal.

Variable casefold : N -> N.

(** Literal atoms match at the head of the subject exactly when the folded
    pattern is a prefix of the folded subject. *)
Lemma match_here_lit p : forall s,
  match_here casefold true (map Lit p) s = true <->
  exists post, map casefold s = map casefold p ++ post.
Proof.
  induction p as [|a p IH]; intros s; simpl.
  - split; [intros _; now exists (map casefold s) | reflexivity].
  - destruct s as [|c s]; simpl.
    + split; [discriminate | intros [post H]; discriminate].
    + rewrite andb_true_iff, N.eqb_eq, IH. split.
      * intros [Hac [post H]]. exists post. now rewrite Hac, H.
      * intros [post H]. injection H as Hc H. split; [now symmetry | now exists post].
Qed.

(** The unanchored search for literal atoms is the search of the folded
    pattern in the folded subject. *)
Lemma search_lit p : forall s,
  search casefold true (map Lit p) s = true <->
  exists pre post, map casefold s = pre ++ map casefold p ++ post.
Proof.
  induction s as [|c s IH]; simpl; rewrite orb_true_iff.
  - split.
    + intros [H|H]; [| discriminate].
      apply match_here_lit in H. destruct H as [post H]. now exists [], post.
    + intros [pre [post H]]. left. apply match_here_lit.
      destruct pre; [now exists post | discriminate].
  - rewrite IH. split.
    + intros [H|[pre [post H]]].
      * apply (match_here_lit p (c :: s)) in H. destruct H as [post H].
        now exists [], post.
      * exists (casefold c :: pre), post. simpl. now rewrite H.
    + intros [[|x pre] [post H]].
      * left. apply (match_here_lit p (c :: s)). now exists post.
      * right. injection H as _ H. now exists pre, post.
Qed.

(** On a pattern of ordinary characters the engine always answers, whatever
    the subject. *)
Lemma regex_search_plain p subject :
  plain p = true ->
  regex_search casefold {| regex := p; options := js "i" |} subject
  = Some (search casefold true (map Lit (code_points p)) (code_points subject)).
Proof.
  intros Hp. unfold regex_search. simpl.
  now rewrite (parse_pattern_ordinary _ Hp).
Qed.

Lemma regex_search_plain_true p subject :
  plain p = true ->
  (regex_search casefold {| regex := p; options := js "i" |} subject = Some true
   <-> ci_substring casefold p subject).
Proof.
  intros Hp. rewrite (regex_search_plain _ _ Hp). unfold ci_substring.
  rewrite <- search_lit. split; [intros H; now injection H | intros ->; reflexivity].
Qed.

Lemma regex_search_plain_false p subject :
  plain p = true ->
  ~ ci_substring casefold p subject ->
  regex_search casefold {| regex := p; options := js "i" |} subject = Some false.
Proof.
  intros Hp Hn. rewrite (regex_search_plain _ _ Hp). f_equal.
  destruct (search casefold true (map Lit (code_points p)) (code_points subject)) eqn:E;
    [| reflexivity].
  exfalso. apply Hn. unfold ci_substring. now apply search_lit.
Qed.

(** The condition on [items.name] holds when it holds on some item. *)
Lemma match_any_item_plain p items :
  plain p = true ->
  match_any_item casefold {| regex := p; options := js "i" |} items
  = Some (existsb (fun i => search casefold true (map Lit (code_points p))
                                   (code_points (Item.name i))) items).
Proof.
  intros Hp. induction items as [|i items IH]; simpl; [reflexivity |].
  rewrite (regex_search_plain _ _ Hp), IH.
  destruct (search casefold true _ (code_points (Item.name i)));
    destruct (existsb _ items); reflexivity.
Qed.

Lemma match_any_item_true p items :
  plain p = true ->
  (match_any_item casefold {| regex := p; options := js "i" |} items = Some true
   <-> exists i, In i items /\ ci_substring casefold p (Item.name i)).
Proof.
  intros Hp. rewrite (match_any_item_plain _ _ Hp). split.
  - intros H. injection H as H. apply existsb_exists in H.
    destruct H as [i [Hi Hs]]. exists i. split; [assumption |].
    unfold ci_substring. now apply search_lit.
  - intros [i [Hi Hs]]. f_equal. apply existsb_exists. exists i.
    split; [assumption |]. now apply search_lit.
Qed.

Lemma match_any_item_false p items :
  plain p = true ->
  ~ (exists i, In i items /\ ci_substring casefold p (Item.name i)) ->
  match_any_item casefold {| regex := p; options := js "i" |} items = Some false.
Proof.
  intros Hp Hn.
  destruct (match_any_item casefold {| regex := p; options := js "i" |} items)
    as [[|]|] eqn:E.
  - exfalso. apply Hn. now apply (match_any_item_true p items Hp).
  - reflexivity.
  - rewrite (match_any_item_plain _ _ Hp) in E. discriminate E.
Qed.

End Literal.

Lemma name_cond_set v s :
  truthy v = Some s -> name_cond v = Some {| regex := s; options := js "i" |}.
Proof. unfold name_cond. now intros ->. Qed.

(** C7, counterexample.  The filter string is handed to the store as a
    regular expression: with [client_name] set to "a.c" the predicate
    accepts the order of client "abc", and with [item_name] set to "a.c" it
    accepts an order whose only item is named "axc", although "a.c" is a
    substring of neither name. *)
Lemma C7_filter_string_is_a_pattern :
  (exists q,
     orders_query Date_sample (Some client_a_dot_c) = Normal q /\
     matches to_lower q abc_order = Some true) /\
  ~ ci_substring to_lower (js "a.c") (Order.client_name abc_order) /\
  (exists q,
     orders_query Date_sample (Some item_a_dot_c) = Normal q /\
     matches to_lower q abc_order = Some true) /\
  ~ (exists i, In i (Order.items abc_order)
               /\ ci_substring to_lower (js "a.c") (Item.name i)).
Proof.
  split; [eexists; split; reflexivity |].
  split; [intros H; apply search_lit in H; discriminate H |].
  split; [eexists; split; reflexivity |].
  intros [i [[<- | []] H]]. apply search_lit in H. discriminate H.
Qed.

(** C7, amended.  Let [client_name] be set to a non-empty string [s] with
    no regular-expression metacharacter and no NUL in it, in a filter with
    no end bound set without its start bound.  Then every matching order
    has a client name that contains [s] as a case-insensitive substring,
    and every order whose client name does not contain it is refused; when
    no other field is set, the orders whose client name contains [s] are
    exactly the ones accepted.  With [item_name] set to such a string, the
    same holds with "some item of the order has a name containing [s]".
    This is so whatever the characters of the names and whatever the case
    folding of the store's engine. *)
Theorem C7_plain_name_is_substring :
  forall (casefold : N -> N) (Date_new : jsstring -> JSDate) (f : FilterInput.t)
         (s : jsstring),
    plain s = true ->
    (truthy (FilterInput.client_name f) = Some s ->
     (bounds_paired f = true ->
      exists q,
        orders_query Date_new (Some f) = Normal q /\
        (forall o, matches casefold q o = Some true ->
                   ci_substring casefold s (Order.client_name o)) /\
        (forall o, ~ ci_substring casefold s (Order.client_name o) ->
                   matches casefold q o = Some false)) /\
     (only_client_name f ->
      exists q,
        orders_query Date_new (Some f) = Normal q /\
        (forall o, ci_substring casefold s (Order.client_name o) ->
                   matches casefold q o = Some true) /\
        (forall o, ~ ci_substring casefold s (Order.client_name o) ->
                   matches casefold q o = Some false))) /\
    (truthy (FilterInput.item_name f) = Some s ->
     (bounds_paired f = true ->
      exists q,
        orders_query Date_new (Some f) = Normal q /\
        (forall o, matches casefold q o = Some true ->
                   exists i, In i (Order.items o)
                             /\ ci_substring casefold s (Item.name i)) /\
        (forall o, ~ (exists i, In i (Order.items o)
                                /\ ci_substring casefold s (Item.name i)) ->
                   matches casefold q o = Some false)) /\
     (only_item_name f ->
      exists q,
        orders_query Date_new (Some f) = Normal q /\
        (forall o, (exists i, In i (Order.items o)
                              /\ ci_substring casefold s (Item.name i)) ->
                   matches casefold q o = Some true) /\
        (forall o, ~ (exists i, In i (Order.items o)
                                /\ ci_substring casefold s (Item.name i)) ->
                   matches casefold q o = Some false))).
Proof.
  intros casefold Date_new f s Hplain. split; intros Hs; split.
  - intros Hp. rewrite orders_query_unfold, Hp, (name_cond_set _ _ Hs).
    eexists. split; [reflexivity | split].
    + intros o Hm. apply matches_true in Hm. simpl in Hm.
      destruct Hm as (_ & Hc & _). now apply (regex_search_plain_true casefold s).
    + intros o Hn. apply matches_false. right. left. simpl.
      now apply regex_search_plain_false.
  - intros (Hst & Hcs & Hce & Hds & Hde & Hin).
    rewrite orders_query_unfold. unfold bounds_paired.
    rewrite (end_has_start_unset _ _ Hce), (end_has_start_unset _ _ Hde), Hst.
    rewrite (name_cond_set _ _ Hs), (name_cond_unset _ Hin),
            (merged_range_unset _ _ _ Hcs), (merged_range_unset _ _ _ Hds). simpl.
    eexists. split; [reflexivity | split].
    + intros o Hc. apply matches_true. simpl.
      repeat split. now apply (regex_search_plain_true casefold s).
    + intros o Hn. apply matches_false. right. left. simpl.
      now apply regex_search_plain_false.
  - intros Hp. rewrite orders_query_unfold, Hp, (name_cond_set _ _ Hs).
    eexists. split; [reflexivity | split].
    + intros o Hm. apply matches_true in Hm. simpl in Hm.
      destruct Hm as (_ & _ & _ & _ & Hi).
      now apply (match_any_item_true casefold s).
    + intros o Hn. apply matches_false. do 4 right. simpl.
      now apply match_any_item_false.
  - intros (Hst & Hcn & Hcs & Hce & Hds & Hde).
    rewrite orders_query_unfold. unfold bounds_paired.
    rewrite (end_has_start_unset _ _ Hce), (end_has_start_unset _ _ Hde), Hst.
    rewrite (name_cond_set _ _ Hs), (name_cond_unset _ Hcn),
            (merged_range_unset _ _ _ Hcs), (merged_range_unset _ _ _ Hds). simpl.
    eexists. split; [reflexivity | split].
    + intros o Hc. apply matches_true. simpl.
      repeat split. now apply (match_any_item_true casefold s).
    + intros o Hn. apply matches_false. do 4 right. simpl.
      now apply match_any_item_false.
Qed.

(** On the filters "acme" and "WIDGET". *)
Lemma C7_plain_name_is_substring_witness :
  ((exists q,
      orders_query Date_sample (Some client_acme) = Normal q /\
      (forall o, matches to_lower q o = Some true ->
                 ci_substring to_lower (js "acme") (Order.client_name o)) /\
      (forall o, ~ ci_substring to_lower (js "acme") (Order.client_name o) ->
                 matches to_lower q o = Some false)) /\
   (exists q,
      orders_query Date_sample (Some client_acme) = Normal q /\
      (forall o, ci_substring to_lower (js "acme") (Order.client_name o) ->
                 matches to_lower q o = Some true) /\
      (forall o, ~ ci_substring to_lower (js "acme") (Order.client_name o) ->
                 matches to_lower q o = Some false))) /\
  ((exists q,
      orders_query Date_sample (Some item_widget) = Normal q /\
      (forall o, matches to_lower q o = Some true ->
                 exists i, In i (Order.items o)
                           /\ ci_substring to_lower (js "WIDGET") (Item.name i)) /\
      (forall o, ~ (exists i, In i (Order.items o)
                              /\ ci_substring to_lower (js "WIDGET") (Item.name i)) ->
                 matches to_lower q o = Some false)) /\
   (exists q,
      orders_query Date_sample (Some item_widget) = Normal q /\
      (forall o, (exists i, In i (Order.items o)
                            /\ ci_substring to_lower (js "WIDGET") (Item.name i)) ->
                 matches to_lower q o = Some true) /\
      (forall o, ~ (exists i, In i (Order.items o)
                              /\ ci_substring to_lower (js "WIDGET") (Item.name i)) ->
                 matches to_lower q o = Some false))).
Proof.
  split.
  - destruct (C7_plain_name_is_substring to_lower Date_sample client_acme (js "acme")
                eq_refl) as [Hclient _].
    destruct (Hclient eq_refl) as [Hany Honly].
    split; [apply Hany; reflexivity | apply Honly; repeat split].
  - destruct (C7_plain_name_is_substring to_lower Date_sample item_widget (js "WIDGET")
                eq_refl) as [_ Hitem].
    destruct (Hitem eq_refl) as [Hany Honly].
    split; [apply Hany; reflexivity | apply Honly; repeat split].
Defined.

(** The example of the specification: the filter "acme" accepts the client
    "Acme Corp"; it accepts as well the client "Cafe Acme" written with an
    accented e, and "WIDGET" finds the item of that order, whose name
    begins with a character outside the basic plane. *)
Example acme_matches_Acme_Corp :
  (forall q,
      orders_query Date_sample (Some client_acme) = Normal q ->
      matches to_lower q acme_corp = Some true /\
      matches to_lower q cafe_acme = Some true /\
      matches to_lower q abc_order = Some false) /\
  (forall q,
      orders_query Date_sample (Some item_widget) = Normal q ->
      matches to_lower q cafe_acme = Some true).
Proof.
  split; intros q H; vm_compute in H; injection H as <-; repeat split.
Qed.

(** ** The cleaning of the completion text *)

Lemma replace_all_cons pat rep c s :
  replace_all pat rep (c :: s) =
  if starts_with pat (c :: s)
  then rep ++ replace_all pat rep (skipn (List.length pat - 1) s)
  else c :: replace_all pat rep s.
Proof.
  simp replace_all. destruct (starts_with pat (c :: s)) eqn:E; reflexivity.
Qed.

(** Nothing changes where the pattern does not occur. *)
Lemma replace_all_absent pat rep s :
  occurs pat s = false -> replace_all pat rep s = s.
Proof.
  funelim (replace_all pat rep s); simpl occurs; intros Hocc.
  - reflexivity.
  - apply orb_false_iff in Hocc. destruct Hocc as [Hocc _]. congruence.
  - apply orb_false_iff in Hocc. destruct Hocc as [_ Hocc]. f_equal. auto.
Qed.

Lemma occurs_cons pat c s :
  occurs pat (c :: s) = starts_with pat (c :: s) || occurs pat s.
Proof. reflexivity. Qed.

Lemma starts_with_app p q s :
  starts_with (p ++ q) s = true -> starts_with p s = true.
Proof.
  revert s. induction p as [|a p IH]; intros s; simpl; [reflexivity |].
  destruct s as [|c s]; [discriminate |].
  rewrite !andb_true_iff. intros [Ha Hp]. split; [assumption | now apply IH].
Qed.

Lemma occurs_app p q s : occurs (p ++ q) s = true -> occurs p s = true.
Proof.
  induction s as [|c s IH]; simpl; rewrite !orb_true_iff.
  - intros [H | H]; [left; now apply starts_with_app in H | discriminate].
  - intros [H | H]; [left; now apply starts_with_app in H | right; now apply IH].
Qed.

Lemma no_fence_no_graphql_fence s :
  has_fence s = false -> occurs (js "```graphql") s = false.
Proof.
  unfold has_fence. intros H.
  destruct (occurs (js "```graphql") s) eqn:E; [| reflexivity].
  change (js "```graphql") with (js "```" ++ js "graphql") in E.
  apply occurs_app in E. congruence.
Qed.

Lemma fence_code : js "```" = [BACKTICK; BACKTICK; BACKTICK].
Proof. reflexivity. Qed.

Lemma leading_backticks_cons c s :
  leading_backticks (c :: s)
  = if (BACKTICK =? c)%N then S (leading_backticks s) else O.
Proof. simpl. now rewrite N.eqb_sym. Qed.

(** A fence at the head of the string: three backticks or more. *)
Lemma starts_with_fence s :
  starts_with (js "```") s = (3 <=? leading_backticks s)%nat.
Proof.
  rewrite fence_code.
  destruct s as [|a [|b [|c s]]]; rewrite ?leading_backticks_cons;
    cbn [starts_with];
    repeat match goal with
           | |- context [(BACKTICK =? ?x)%N] => destruct (BACKTICK =? x)%N; cbn [andb]
           end; reflexivity.
Qed.

Lemma starts_with_fence_inv s :
  starts_with (js "```") s = true ->
  exists rest, s = BACKTICK :: BACKTICK :: BACKTICK :: rest.
Proof.
  rewrite fence_code.
  destruct s as [|a [|b [|c s]]]; cbn [starts_with]; rewrite ?andb_false_r;
    try discriminate.
  rewrite !andb_true_iff, !N.eqb_eq. intros (<- & <- & <- & _). now exists s.
Qed.

(** Induction along the scan of [replace_all]: at an occurrence the scan
    resumes after it, elsewhere it moves on by one character. *)
Lemma scan_ind (pat : jsstring) (P : jsstring -> Prop) :
  P [] ->
  (forall c s, starts_with pat (c :: s) = true ->
               P (skipn (List.length pat - 1) s) -> P (c :: s)) ->
  (forall c s, starts_with pat (c :: s) = false -> P s -> P (c :: s)) ->
  forall s, P s.
Proof.
  intros Hnil Hhit Hmiss s.
  induction s as [s IH] using (induction_ltof1 _ (@List.length N)).
  unfold ltof in IH.
  destruct s as [|c s]; [exact Hnil |].
  destruct (starts_with pat (c :: s)) eqn:E.
  - apply Hhit; [exact E |]. apply IH. simpl. rewrite length_skipn. lia.
  - apply Hmiss; [exact E |]. apply IH. simpl. lia.
Qed.

(** Deleting the fences never lengthens the run of backticks at the head. *)
Lemma delete_fences_leading s :
  (leading_backticks (replace_all (js "```") [] s) <= leading_backticks s)%nat.
Proof.
  induction s as [|c s Hhit IH|c s Hmiss IH] using (scan_ind (js "```")).
  - auto.
  - rewrite replace_all_cons, Hhit.
    destruct (starts_with_fence_inv _ Hhit) as [rest Hrest].
    injection Hrest as -> ->. simpl in *. lia.
  - rewrite replace_all_cons, Hmiss. simpl.
    destruct (c =? BACKTICK)%N; lia.
Qed.

(** After the deletion no fence is left. *)
Lemma delete_fences_clean s : has_fence (replace_all (js "```") [] s) = false.
Proof.
  unfold has_fence.
  induction s as [|c s Hhit IH|c s Hmiss IH] using (scan_ind (js "```")).
  - reflexivity.
  - rewrite replace_all_cons, Hhit. exact IH.
  - rewrite replace_all_cons, Hmiss, occurs_cons, IH, orb_false_r.
    rewrite starts_with_fence in *.
    apply Nat.leb_gt. apply Nat.leb_gt in Hmiss.
    pose proof (delete_fences_leading s) as Hle.
    simpl in *. destruct (c =? BACKTICK)%N; lia.
Qed.

(** The last replacement works character by character. *)
Lemma replace_lf_map s : replace_all [LF] (js " ") s = map lf_to_space s.
Proof.
  induction s as [|c s Hhit IH|c s Hmiss IH] using (scan_ind [LF]).
  - reflexivity.
  - rewrite replace_all_cons, Hhit.
    cbn [starts_with] in Hhit. rewrite andb_true_r in Hhit.
    apply N.eqb_eq in Hhit. subst c.
    cbn [List.length Nat.sub skipn] in IH |- *. rewrite IH. reflexivity.
  - rewrite replace_all_cons, Hmiss.
    cbn [starts_with] in Hmiss. rewrite andb_true_r in Hmiss.
    cbn [map]. rewrite IH. unfold lf_to_space at 2.
    rewrite N.eqb_sym, Hmiss. reflexivity.
Qed.

Lemma lf_to_space_backtick c : (BACKTICK =? lf_to_space c)%N = (BACKTICK =? c)%N.
Proof.
  unfold lf_to_space. destruct (N.eqb_spec c LF) as [-> |]; reflexivity.
Qed.

Lemma leading_backticks_map s :
  leading_backticks (map lf_to_space s) = leading_backticks s.
Proof.
  induction s as [|c s IH]; [reflexivity |].
  cbn [map]. rewrite !leading_backticks_cons, lf_to_space_backtick, IH. reflexivity.
Qed.

Lemma occurs_fence_lf_to_space s :
  has_fence (map lf_to_space s) = has_fence s.
Proof.
  unfold has_fence.
  induction s as [|a s IH]; [reflexivity |].
  cbn [map]. rewrite !occurs_cons, IH, !starts_with_fence.
  change (lf_to_space a :: map lf_to_space s) with (map lf_to_space (a :: s)).
  now rewrite leading_backticks_map.
Qed.

Lemma no_lf_after_map s : ~ In LF (map lf_to_space s).
Proof.
  induction s as [|c s IH]; simpl; [tauto |].
  intros [H | H]; [| tauto].
  unfold lf_to_space in H. destruct (N.eqb_spec c LF); [discriminate | congruence].
Qed.

Lemma occurs_lf s : ~ In LF s -> occurs [LF] s = false.
Proof.
  induction s as [|c s IH]; [reflexivity |].
  intros H. rewrite occurs_cons. cbn [starts_with]. rewrite andb_true_r.
  apply orb_false_iff. split.
  - apply N.eqb_neq. intros E. apply H. left. now symmetry.
  - apply IH. intros Hin. apply H. now right.
Qed.

(** The outcome of [trim] has no whitespace at either end. *)
Lemma trim_start_head s : starts_with_ws (trim_start s) = false.
Proof.
  induction s as [|c s IH]; simpl; [reflexivity |].
  destruct (is_whitespace c) eqn:E; [assumption | simpl; assumption].
Qed.

Lemma trim_start_snoc s c :
  is_whitespace c = false -> trim_start (s ++ [c]) = trim_start s ++ [c].
Proof.
  intros Hc. induction s as [|a s IH]; simpl.
  - now rewrite Hc.
  - destruct (is_whitespace a); [assumption | reflexivity].
Qed.

Lemma trim_end_head s : starts_with_ws s = false -> starts_with_ws (trim_end s) = false.
Proof.
  unfold trim_end. destruct s as [|c s]; simpl; [reflexivity |].
  intros Hc. rewrite (trim_start_snoc _ _ Hc), rev_app_distr. simpl. assumption.
Qed.

Lemma trim_no_surrounding_ws s :
  starts_with_ws (trim s) = false /\ ends_with_ws (trim s) = false.
Proof.
  unfold trim. split.
  - apply trim_end_head, trim_start_head.
  - unfold ends_with_ws, trim_end. rewrite rev_involutive. apply trim_start_head.
Qed.

(** [trim] keeps a middle part of the string and drops whitespace only. *)
Lemma trim_start_split s :
  exists pre, s = pre ++ trim_start s /\ forallb is_whitespace pre = true.
Proof.
  induction s as [|c s [pre [Hs Hpre]]]; simpl.
  - now exists [].
  - destruct (is_whitespace c) eqn:Hc.
    + exists (c :: pre). simpl. rewrite Hc, Hpre. split; [now f_equal | reflexivity].
    + now exists [].
Qed.

Lemma forallb_rev {A} (p : A -> bool) l : forallb p l = true -> forallb p (rev l) = true.
Proof.
  rewrite !forallb_forall. intros H x Hx. apply H. now apply in_rev.
Qed.

Lemma trim_split_ws s :
  exists pre post,
    s = pre ++ trim s ++ post /\
    forallb is_whitespace pre = true /\ forallb is_whitespace post = true.
Proof.
  destruct (trim_start_split s) as [pre [Hs Hpre]].
  destruct (trim_start_split (rev (trim_start s))) as [post [Ht Hpost]].
  exists pre, (rev post). unfold trim, trim_end.
  rewrite <- rev_app_distr, <- Ht, rev_involutive.
  split; [exact Hs | split; [exact Hpre | now apply forallb_rev]].
Qed.

Lemma trim_split s : exists pre post, s = pre ++ trim s ++ post.
Proof.
  destruct (trim_split_ws s) as (pre & post & H & _). now exists pre, post.
Qed.

Lemma is_whitespace_lf_to_space c : is_whitespace (lf_to_space c) = is_whitespace c.
Proof.
  unfold lf_to_space. destruct (N.eqb_spec c LF) as [-> |]; reflexivity.
Qed.

Lemma starts_with_ws_map t : starts_with_ws (map lf_to_space t) = starts_with_ws t.
Proof. destruct t as [|c t]; [reflexivity | apply is_whitespace_lf_to_space]. Qed.

Lemma ends_with_ws_map t : ends_with_ws (map lf_to_space t) = ends_with_ws t.
Proof. unfold ends_with_ws. rewrite <- map_rev. apply starts_with_ws_map. Qed.

(** [replace_all] against the reading of "every occurrence is replaced". *)
Lemma starts_with_prefix pat s :
  starts_with pat s = true -> s = pat ++ skipn (List.length pat) s.
Proof.
  revert s. induction pat as [|p pat IH]; intros s; [reflexivity |].
  destruct s as [|c s]; [discriminate |]. cbn [starts_with].
  rewrite andb_true_iff, N.eqb_eq. intros [<- Hs].
  cbn [List.length skipn app]. f_equal. now apply IH.
Qed.

Lemma starts_with_self pat s : starts_with pat (pat ++ s) = true.
Proof.
  induction pat as [|p pat IH]; [reflexivity |].
  cbn [app starts_with]. now rewrite N.eqb_refl, IH.
Qed.

Lemma replace_all_Replaced pat rep s :
  pat <> [] -> Replaced pat rep s (replace_all pat rep s).
Proof.
  intros Hne. destruct pat as [|p pat]; [congruence |].
  induction s as [|c s Hhit IH|c s Hmiss IH] using (scan_ind (p :: pat)).
  - simp replace_all. constructor.
  - rewrite replace_all_cons, Hhit.
    pose proof (starts_with_prefix _ _ Hhit) as Hsplit.
    cbn [List.length skipn] in Hsplit.
    cbn [List.length] in IH |- *.
    replace (S (List.length pat) - 1)%nat with (List.length pat) in IH |- * by lia.
    rewrite Hsplit at 1. now constructor.
  - rewrite replace_all_cons, Hmiss. now constructor.
Qed.

(** The reading leaves no choice: it has one outcome. *)
Lemma Replaced_unique pat rep s o1 o2 :
  pat <> [] -> Replaced pat rep s o1 -> Replaced pat rep s o2 -> o1 = o2.
Proof.
  intros Hne H1. revert o2.
  induction H1 as [| s out H1 IH | c s out Hmiss H1 IH]; intros o2 H2.
  - inversion H2 as [| s' out' H' Hs | c' s' out' Hm' H' Hs]; subst.
    + reflexivity.
    + destruct pat; [congruence | discriminate].
  - inversion H2 as [Hs | s' out' H' Hs | c' s' out' Hm' H' Hs]; subst.
    + destruct pat; [congruence | discriminate].
    + apply app_inv_head in Hs. subst s'. f_equal. now apply IH.
    + rewrite Hs, starts_with_self in Hm'. discriminate.
  - inversion H2 as [| s' out' H' Hs | c' s' out' Hm' H' Hs]; subst.
    + rewrite <- Hs, starts_with_self in Hmiss. discriminate.
    + f_equal. now apply IH.
Qed.

(** ** Claims on the NL-to-Query Bridge *)

(** C4, counterexample.  A completion text wrapped in a [graphql] fence on
    lines of its own is cleaned into a string that begins and ends with a
    space: the text is trimmed before the fences go and the line feeds turn
    into spaces, not after. *)
Lemma C4_fenced_text_keeps_surrounding_spaces :
  clean_query fenced_completion = js " query { orders { id } } " /\
  starts_with_ws (clean_query fenced_completion) = true /\
  ends_with_ws (clean_query fenced_completion) = true /\
  trim (clean_query fenced_completion) <> clean_query fenced_completion.
Proof.
  assert (H : clean_query fenced_completion = js " query { orders { id } } ")
    by (vm_compute; reflexivity).
  rewrite H. repeat split. vm_compute. discriminate.
Qed.

(** C4, amended.  The cleaning first trims the completion text: it drops
    whitespace at both ends and nothing else, until a character that is
    not whitespace stands at each end.  In the trimmed text it then
    replaces by nothing every occurrence of the [graphql] fence, taken from
    left to right without overlap, then likewise every run of three
    backticks of what is left, then turns every line feed into one space,
    and changes nothing else.  The result holds no run of three backticks
    and no line feed; and when the trimmed text holds no run of three
    backticks, the result has no whitespace at either end. *)
Theorem C4_clean_query_trims_then_replaces :
  forall content : jsstring,
    (exists pre post,
        content = pre ++ trim content ++ post /\
        forallb is_whitespace pre = true /\ forallb is_whitespace post = true) /\
    starts_with_ws (trim content) = false /\
    ends_with_ws (trim content) = false /\
    (exists t1 t2,
        Replaced (js "```graphql") [] (trim content) t1 /\
        Replaced (js "```") [] t1 t2 /\
        clean_query content = map lf_to_space t2) /\
    has_fence (clean_query content) = false /\
    ~ In LF (clean_query content) /\
    (has_fence (trim content) = false ->
     starts_with_ws (clean_query content) = false /\
     ends_with_ws (clean_query content) = false).
Proof.
  intros content.
  split; [apply trim_split_ws |].
  split; [apply trim_no_surrounding_ws |].
  split; [apply trim_no_surrounding_ws |].
  unfold clean_query, strip_fences. rewrite replace_lf_map.
  split; [| split; [| split]].
  - exists (replace_all (js "```graphql") [] (trim content)),
           (replace_all (js "```") [] (replace_all (js "```graphql") [] (trim content))).
    split; [apply replace_all_Replaced; vm_compute; discriminate |].
    split; [apply replace_all_Replaced; vm_compute; discriminate | reflexivity].
  - rewrite occurs_fence_lf_to_space. apply delete_fences_clean.
  - apply no_lf_after_map.
  - intros Hfence.
    rewrite (replace_all_absent (js "```graphql") [] (trim content))
      by now apply no_fence_no_graphql_fence.
    rewrite (replace_all_absent (js "```") [] (trim content)) by exact Hfence.
    rewrite starts_with_ws_map, ends_with_ws_map. apply trim_no_surrounding_ws.
Qed.

(** On a query of three lines with spaces before it and a line feed
    after. *)
Lemma C4_clean_query_trims_then_replaces_witness :
  clean_query multiline_completion = js "query {   orders { id } }" /\
  starts_with_ws (clean_query multiline_completion) = false /\
  ends_with_ws (clean_query multiline_completion) = false.
Proof.
  destruct (C4_clean_query_trims_then_replaces multiline_completion)
    as (_ & _ & _ & _ & _ & _ & H).
  split; [vm_compute; reflexivity | apply H; vm_compute; reflexivity].
Defined.

(** Only the [graphql] annotation goes with its fence; another annotation
    stays in the text. *)
Example json_annotation_stays :
  clean_query json_fenced_completion = js "json query { orders { id } } ".
Proof. vm_compute. reflexivity. Qed.

(** On a well-formed response the bridge resolves with the cleaned text. *)
Lemma extract_query_completion_body content :
  extract_query (completion_body content) = Normal (JString (clean_query content)).
Proof. reflexivity. Qed.

Lemma generateGraphQLQuery_success w userInput content :
  completion_api w userInput = Normal (completion_body content) ->
  generateGraphQLQuery w userInput
  = (Normal (JString (clean_query content)), [CompletionRequest userInput]).
Proof.
  intros H. unfold generateGraphQLQuery. rewrite H. simpl bind.
  rewrite extract_query_completion_body. reflexivity.
Qed.

(** C5.  When the call to the completion API fails with an error, the
    bridge logs it and resolves with [null]; and on every outcome of the
    call, the bridge completes normally: no error leaves it. *)
Theorem C5_bridge_failure_returns_null :
  forall (w : Services) (userInput : JSValue),
    (forall error,
        completion_api w userInput = Throw error ->
        generateGraphQLQuery w userInput
        = (Normal JNull,
           [CompletionRequest userInput;
            ConsoleError (js "Error generating GraphQL query:") error])) /\
    (exists v evs, generateGraphQLQuery w userInput = (Normal v, evs)).
Proof.
  intros w userInput. unfold generateGraphQLQuery. split.
  - intros error H. rewrite H. reflexivity.
  - destruct (data <- completion_api w userInput ;; extract_query data);
      eexists; eexists; reflexivity.
Qed.

(** On a completion API that answers 401. *)
Lemma C5_bridge_failure_returns_null_witness :
  generateGraphQLQuery failing_services (JString (js "orders that are shipped"))
  = (Normal JNull,
     [CompletionRequest (JString (js "orders that are shipped"));
      ConsoleError (js "Error generating GraphQL query:")
                   (AxiosError (js "Request failed with status code 401"))]).
Proof.
  destruct (C5_bridge_failure_returns_null failing_services
              (JString (js "orders that are shipped"))) as [H _].
  apply H. reflexivity.
Defined.

(** A response without the expected path also ends in [null]. *)
Example malformed_response_gives_null :
  forall userInput,
    fst (generateGraphQLQuery
           {| completion_api := fun _ => Normal (JObject [(js "error", JString (js "quota"))]);
              graphql_api := fun _ => Normal JNull |}
           userInput)
    = Normal JNull.
Proof. reflexivity. Qed.

(** ** Claims on the HTTP handlers *)

(** C9.  On a request body without [userInput], both handlers answer 400
    with [{ error: "User input is required" }] and nothing else happens: no
    call, no log.  When the bridge resolves with [null], both answer 500
    with a body that has an [error] field. *)
Theorem C9_handlers_400_and_500 :
  forall (w : Services) (fields : list (jsstring * JSValue)),
    (lookup (js "userInput") fields = None ->
     generate_query w (JObject fields)
     = (Normal (status_send 400 (error_body "User input is required")), []) /\
     fetch_orders w (JObject fields)
     = (Normal (status_send 400 (error_body "User input is required")), [])) /\
    (forall userInput evs,
        lookup (js "userInput") fields = Some userInput ->
        is_truthy userInput = true ->
        generateGraphQLQuery w userInput = (Normal JNull, evs) ->
        exists r1 r2,
          generate_query w (JObject fields) = (Normal r1, evs) /\
          fetch_orders w (JObject fields) = (Normal r2, evs) /\
          status_code r1 = 500 /\ has_error_field (body r1) = true /\
          status_code r2 = 500 /\ has_error_field (body r2) = true).
Proof.
  intros w fields. split.
  - intros H. unfold generate_query, fetch_orders, get_prop. rewrite H. split; reflexivity.
  - intros userInput evs Hu Ht Hb.
    unfold generate_query, fetch_orders, get_prop. rewrite Hu, Ht, Hb. simpl.
    eexists. eexists. repeat split.
Qed.

(** On an empty body, and on a request met by a failing completion API. *)
Lemma C9_handlers_400_and_500_witness :
  (generate_query failing_services (JObject [])
   = (Normal (status_send 400 (error_body "User input is required")), []) /\
   fetch_orders failing_services (JObject [])
   = (Normal (status_send 400 (error_body "User input is required")), [])) /\
  (exists r1 r2 evs,
      generate_query failing_services
        (JObject [(js "userInput", JString (js "orders that are shipped"))])
      = (Normal r1, evs) /\
      fetch_orders failing_services
        (JObject [(js "userInput", JString (js "orders that are shipped"))])
      = (Normal r2, evs) /\
      status_code r1 = 500 /\ has_error_field (body r1) = true /\
      status_code r2 = 500 /\ has_error_field (body r2) = true).
Proof.
  split.
  - apply (C9_handlers_400_and_500 failing_services []). reflexivity.
  - destruct (C9_handlers_400_and_500 failing_services
                [(js "userInput", JString (js "orders that are shipped"))]) as [_ H].
    destruct (H (JString (js "orders that are shipped")) _ eq_refl eq_refl eq_refl)
      as (r1 & r2 & Hr).
    exists r1, r2. eexists. exact Hr.
Defined.

(** The other failure of /fetch-orders: the query is generated and the
    call to the GraphQL endpoint fails. *)
Example fetch_orders_execution_failure :
  forall userInput content,
    is_truthy userInput = true ->
    is_truthy (JString (clean_query content)) = true ->
    fst (fetch_orders
           {| completion_api := fun _ => Normal (completion_body content);
              graphql_api := fun _ => Throw (AxiosError (js "connect ECONNREFUSED")) |}
           (JObject [(js "userInput", userInput)]))
    = Normal (status_send 500 (error_body "Failed to fetch orders")).
Proof.
  intros userInput content Hu Hq.
  set (w := {| completion_api := fun _ => Normal (completion_body content);
               graphql_api := fun _ => Throw (AxiosError (js "connect ECONNREFUSED")) |}).
  unfold fetch_orders, get_prop. cbn [lookup].
  change (jsstring_eqb (js "userInput") (js "userInput")) with true. cbv iota.
  rewrite Hu. cbn [negb].
  rewrite (generateGraphQLQuery_success w userInput content eq_refl).
  rewrite Hq. reflexivity.
Qed.

(** * Further properties of the code *)

(** ** The translator *)

(** The translator throws in one situation only, an end bound set without
    its start bound on [created_at] or on [closed_at], and what it throws
    is the TypeError; the date strings play no part in it. *)
Theorem translator_throws_exactly_on_lone_end_bound :
  forall (Date_new : jsstring -> JSDate) (f : FilterInput.t) (e : JSError),
    orders_query Date_new (Some f) = Throw e <->
    e = TypeError /\
    ((unset (FilterInput.created_at_start f) /\ ~ unset (FilterInput.created_at_end f)) \/
     (unset (FilterInput.closed_at_start f) /\ ~ unset (FilterInput.closed_at_end f))).
Proof.
  intros Date_new f e. rewrite orders_query_unfold.
  unfold bounds_paired, end_has_start, unset.
  destruct (truthy (FilterInput.created_at_start f));
    destruct (truthy (FilterInput.created_at_end f));
    destruct (truthy (FilterInput.closed_at_start f));
    destruct (truthy (FilterInput.closed_at_end f)); simpl;
    (split;
     [ intros H;
       first [ discriminate H
             | injection H as <-; split; [reflexivity |];
               first [ left; split; [reflexivity | discriminate]
                     | right; split; [reflexivity | discriminate] ] ]
     | intros [-> [[H1 H2] | [H1 H2]]];
       first [ discriminate H1 | exfalso; apply H2; reflexivity | reflexivity ] ]).
Qed.

Lemma merged_range_start_only Date_new start end_ s :
  truthy start = Some s -> unset end_ ->
  merged_range Date_new start end_ = Some {| gte := Date_new s; lte := None |}.
Proof. unfold merged_range, unset. now intros -> ->. Qed.

Lemma match_range_lower a t :
  match_range {| gte := Date_ms a; lte := None |} (Some t) = Some (a <=? t).
Proof. reflexivity. Qed.

(** With [created_at_start] set to a string that parses, to the time [a],
    and [created_at_end] not set, in a filter with no end bound set without
    its start bound, the query holds [{ $gte: a }] alone on [created_at]:
    every matching order has [a <= created_at], with no upper bound, and
    every order created before [a] is refused; when no other field is set
    the predicate is exactly [a <= created_at]. *)
Theorem created_at_start_alone_is_lower_bound :
  forall (casefold : N -> N) (Date_new : jsstring -> JSDate) (f : FilterInput.t)
         (s : jsstring) (a : Z),
    truthy (FilterInput.created_at_start f) = Some s ->
    unset (FilterInput.created_at_end f) ->
    Date_new s = Date_ms a ->
    (bounds_paired f = true ->
     exists q,
       orders_query Date_new (Some f) = Normal q /\
       Query.created_at q = Some {| gte := Date_ms a; lte := None |} /\
       (forall o, matches casefold q o = Some true -> a <= Order.created_at o) /\
       (forall o, Order.created_at o < a -> matches casefold q o = Some false)) /\
    (only_created_at f ->
     exists q,
       orders_query Date_new (Some f) = Normal q /\
       forall o, matches casefold q o = Some (a <=? Order.created_at o)).
Proof.
  intros casefold Date_new f s a Hs He Ha.
  assert (Hrange : merged_range Date_new (FilterInput.created_at_start f)
                                (FilterInput.created_at_end f)
                   = Some {| gte := Date_ms a; lte := None |}).
  { rewrite (merged_range_start_only _ _ _ _ Hs He), Ha. reflexivity. }
  split.
  - intros Hp. rewrite orders_query_unfold, Hp, Hrange.
    eexists. split; [reflexivity | split; [reflexivity | split]].
    + intros o Hm. apply matches_true in Hm. simpl in Hm.
      destruct Hm as (_ & _ & Hc & _).
      rewrite match_range_lower in Hc. injection Hc as Hc. now apply Z.leb_le.
    + intros o Ho. apply matches_false. right. right. left. simpl.
      rewrite match_range_lower. f_equal. now apply Z.leb_gt.
  - intros (Hst & Hcn & Hds & Hde & Hin).
    rewrite orders_query_unfold. unfold bounds_paired.
    rewrite (end_has_start_unset _ _ He), (end_has_start_unset _ _ Hde), Hrange, Hst.
    rewrite (name_cond_unset _ Hcn), (name_cond_unset _ Hin),
            (merged_range_unset _ _ _ Hds). simpl.
    eexists. split; [reflexivity |].
    intros o. unfold matches. simpl. now destruct (a <=? Order.created_at o).
Qed.

(** On the filter that starts in January 2024. *)
Lemma created_at_start_alone_is_lower_bound_witness :
  (exists q,
     orders_query Date_sample (Some from_january) = Normal q /\
     Query.created_at q = Some {| gte := Date_ms 1704067200000; lte := None |} /\
     (forall o, matches to_lower q o = Some true -> 1704067200000 <= Order.created_at o) /\
     (forall o, Order.created_at o < 1704067200000 -> matches to_lower q o = Some false)) /\
  (exists q,
     orders_query Date_sample (Some from_january) = Normal q /\
     forall o, matches to_lower q o = Some (1704067200000 <=? Order.created_at o)).
Proof.
  destruct (created_at_start_alone_is_lower_bound to_lower Date_sample from_january
              (js "2024-01-01") 1704067200000 eq_refl eq_refl eq_refl) as [Hany Honly].
  split; [apply Hany; reflexivity | apply Honly; repeat split].
Defined.

Lemma match_range_closed_field a b v :
  match_range {| gte := Date_ms a; lte := Some (Date_ms b) |} v = Some true <->
  exists t, v = Some t /\ a <= t <= b.
Proof.
  destruct v as [t|].
  - rewrite match_range_true_bounds. split.
    + intros H. now exists t.
    + intros [t' [Ht H]]. injection Ht as <-. exact H.
  - simpl. split; [discriminate | intros [t [Ht _]]; discriminate].
Qed.

Lemma match_range_closed_field_false a b v :
  ~ (exists t, v = Some t /\ a <= t <= b) ->
  match_range {| gte := Date_ms a; lte := Some (Date_ms b) |} v = Some false.
Proof.
  intros Hn.
  destruct (match_range {| gte := Date_ms a; lte := Some (Date_ms b) |} v)
    as [[|]|] eqn:E.
  - exfalso. apply Hn. now apply match_range_closed_field.
  - reflexivity.
  - destruct v; discriminate E.
Qed.

(** [closed_at] is bounded like [created_at].  With both of its bounds set
    to strings that parse, to [a] and [b], and [created_at_end] not set
    without [created_at_start], the query holds the one range
    [{ $gte: a, $lte: b }] on [closed_at]; every matching order has a
    [closed_at] within [a] and [b], and every other order is refused, the
    orders not closed yet among them.  When no other field is set, the
    orders closed within [a] and [b] are exactly the ones accepted. *)
Theorem closed_at_range_excludes_open_orders :
  forall (casefold : N -> N) (Date_new : jsstring -> JSDate) (f : FilterInput.t)
         (s e : jsstring) (a b : Z),
    truthy (FilterInput.closed_at_start f) = Some s ->
    truthy (FilterInput.closed_at_end f) = Some e ->
    Date_new s = Date_ms a ->
    Date_new e = Date_ms b ->
    (end_has_start (FilterInput.created_at_start f) (FilterInput.created_at_end f) = true ->
     exists q,
       orders_query Date_new (Some f) = Normal q /\
       Query.closed_at q = Some {| gte := Date_ms a; lte := Some (Date_ms b) |} /\
       (forall o, matches casefold q o = Some true ->
                  exists t, Order.closed_at o = Some t /\ a <= t <= b) /\
       (forall o, ~ (exists t, Order.closed_at o = Some t /\ a <= t <= b) ->
                  matches casefold q o = Some false)) /\
    (only_closed_at f ->
     exists q,
       orders_query Date_new (Some f) = Normal q /\
       (forall o, (exists t, Order.closed_at o = Some t /\ a <= t <= b) ->
                  matches casefold q o = Some true) /\
       (forall o, ~ (exists t, Order.closed_at o = Some t /\ a <= t <= b) ->
                  matches casefold q o = Some false)).
Proof.
  intros casefold Date_new f s e a b Hs He Ha Hb.
  assert (Hrange : merged_range Date_new (FilterInput.closed_at_start f)
                                (FilterInput.closed_at_end f)
                   = Some {| gte := Date_ms a; lte := Some (Date_ms b) |}).
  { rewrite (merged_range_both _ _ _ _ _ Hs He), Ha, Hb. reflexivity. }
  assert (Hpair : end_has_start (FilterInput.closed_at_start f)
                                (FilterInput.closed_at_end f) = true).
  { exact (end_has_start_set _ _ _ Hs). }
  split.
  - intros Hcreated. rewrite orders_query_unfold. unfold bounds_paired.
    rewrite Hpair, Hcreated, Hrange. simpl.
    eexists. split; [reflexivity | split; [reflexivity | split]].
    + intros o Hm. apply matches_true in Hm. simpl in Hm.
      destruct Hm as (_ & _ & _ & Hc & _).
      now apply match_range_closed_field in Hc.
    + intros o Hn. apply matches_false. do 3 right. left. simpl.
      now apply match_range_closed_field_false.
  - intros (Hst & Hcn & Hcs & Hce & Hin).
    rewrite orders_query_unfold. unfold bounds_paired.
    rewrite Hpair, (end_has_start_unset _ _ Hce), Hrange, Hst.
    rewrite (name_cond_unset _ Hcn), (name_cond_unset _ Hin),
            (merged_range_unset _ _ _ Hcs). simpl.
    eexists. split; [reflexivity | split].
    + intros o Ho. apply matches_true. simpl. repeat split.
      now apply match_range_closed_field.
    + intros o Hn. apply matches_false. do 3 right. left. simpl.
      now apply match_range_closed_field_false.
Qed.

(** On the filter of the orders closed in January 2024. *)
Lemma closed_at_range_excludes_open_orders_witness :
  (exists q,
     orders_query Date_sample (Some january_closed) = Normal q /\
     Query.closed_at q
     = Some {| gte := Date_ms 1704067200000; lte := Some (Date_ms 1706659200000) |} /\
     (forall o, matches to_lower q o = Some true ->
                exists t, Order.closed_at o = Some t
                          /\ 1704067200000 <= t <= 1706659200000) /\
     (forall o, ~ (exists t, Order.closed_at o = Some t
                             /\ 1704067200000 <= t <= 1706659200000) ->
                matches to_lower q o = Some false)) /\
  (exists q,
     orders_query Date_sample (Some january_closed) = Normal q /\
     (forall o, (exists t, Order.closed_at o = Some t
                           /\ 1704067200000 <= t <= 1706659200000) ->
                matches to_lower q o = Some true) /\
     (forall o, ~ (exists t, Order.closed_at o = Some t
                             /\ 1704067200000 <= t <= 1706659200000) ->
                matches to_lower q o = Some false)).
Proof.
  destruct (closed_at_range_excludes_open_orders to_lower Date_sample january_closed
              (js "2024-01-01") (js "2024-01-31") 1704067200000 1706659200000
              eq_refl eq_refl eq_refl eq_refl) as [Hany Honly].
  split; [apply Hany; reflexivity | apply Honly; repeat split].
Defined.

(** A range whose start lies after its end is accepted as it is and
    selects nothing: with both bounds of [created_at] set to strings that
    parse, to [a] and [b] with [b < a], and [closed_at_end] not set without
    [closed_at_start], the translator returns a query, without any error,
    and every order is refused by it. *)
Theorem inverted_range_matches_nothing :
  forall (casefold : N -> N) (Date_new : jsstring -> JSDate) (f : FilterInput.t)
         (s e : jsstring) (a b : Z),
    truthy (FilterInput.created_at_start f) = Some s ->
    truthy (FilterInput.created_at_end f) = Some e ->
    Date_new s = Date_ms a ->
    Date_new e = Date_ms b ->
    b < a ->
    end_has_start (FilterInput.closed_at_start f) (FilterInput.closed_at_end f) = true ->
    exists q,
      orders_query Date_new (Some f) = Normal q /\
      forall o, matches casefold q o = Some false.
Proof.
  intros casefold Date_new f s e a b Hs He Ha Hb Hlt Hclosed.
  assert (Hrange : merged_range Date_new (FilterInput.created_at_start f)
                                (FilterInput.created_at_end f)
                   = Some {| gte := Date_ms a; lte := Some (Date_ms b) |}).
  { rewrite (merged_range_both _ _ _ _ _ Hs He), Ha, Hb. reflexivity. }
  assert (Hpair : end_has_start (FilterInput.created_at_start f)
                                (FilterInput.created_at_end f) = true).
  { exact (end_has_start_set _ _ _ Hs). }
  rewrite orders_query_unfold. unfold bounds_paired.
  rewrite Hpair, Hclosed, Hrange. simpl.
  eexists. split; [reflexivity |].
  intros o. apply matches_false. right. right. left. simpl.
  apply match_range_outside. lia.
Qed.

(** On the filter from the end of January 2024 back to its start. *)
Lemma inverted_range_matches_nothing_witness :
  exists q,
    orders_query Date_sample (Some inverted_january) = Normal q /\
    forall o, matches to_lower q o = Some false.
Proof.
  apply (inverted_range_matches_nothing to_lower Date_sample inverted_january
           (js "2024-01-31") (js "2024-01-01") 1706659200000 1704067200000
           eq_refl eq_refl eq_refl eq_refl eq_refl eq_refl).
Defined.

(** The fields of a filter combine by conjunction.  Whenever the translator
    returns a query for the filter, it returns one for the filter cut down
    to each of its five kinds of field, and the verdict of the whole on an
    order is the conjunction of the verdicts of the five. *)
Theorem fields_combine_by_conjunction :
  forall (casefold : N -> N) (Date_new : jsstring -> JSDate) (f : FilterInput.t),
    bounds_paired f = true ->
    exists q q_status q_client q_created q_closed q_item,
      orders_query Date_new (Some f) = Normal q /\
      orders_query Date_new (Some (keep_status f)) = Normal q_status /\
      orders_query Date_new (Some (keep_client_name f)) = Normal q_client /\
      orders_query Date_new (Some (keep_created_at f)) = Normal q_created /\
      orders_query Date_new (Some (keep_closed_at f)) = Normal q_closed /\
      orders_query Date_new (Some (keep_item_name f)) = Normal q_item /\
      forall o,
        matches casefold q o
        = verdict_and (matches casefold q_status o)
            (verdict_and (matches casefold q_client o)
               (verdict_and (matches casefold q_created o)
                  (verdict_and (matches casefold q_closed o)
                               (matches casefold q_item o)))).
Proof.
  intros casefold Date_new f Hp. pose proof Hp as Hp'.
  unfold bounds_paired in Hp'. apply andb_true_iff in Hp'. destruct Hp' as [Hc Hd].
  rewrite !orders_query_unfold, Hp.
  unfold bounds_paired, keep_status, keep_client_name, keep_created_at,
         keep_closed_at, keep_item_name.
  cbn [FilterInput.status FilterInput.client_name FilterInput.created_at_start
       FilterInput.created_at_end FilterInput.closed_at_start
       FilterInput.closed_at_end FilterInput.item_name].
  rewrite Hc, Hd.
  change (end_has_start None None) with true.
  change (name_cond None) with (@None RegexCond).
  change (merged_range Date_new None None) with (@None RangeCond).
  cbn [andb].
  do 6 eexists. repeat (split; [reflexivity |]).
  intros o. unfold matches.
  cbn [Query.status Query.client_name Query.created_at Query.closed_at Query.items_name].
  rewrite !on_key_None, !verdict_and_true_l, !verdict_and_true_r. reflexivity.
Qed.

(** On a filter with all five kinds of field set. *)
Lemma fields_combine_by_conjunction_witness :
  exists q q_status q_client q_created q_closed q_item,
    orders_query Date_sample (Some shipped_acme_in_january) = Normal q /\
    orders_query Date_sample (Some (keep_status shipped_acme_in_january)) = Normal q_status /\
    orders_query Date_sample (Some (keep_client_name shipped_acme_in_january))
    = Normal q_client /\
    orders_query Date_sample (Some (keep_created_at shipped_acme_in_january))
    = Normal q_created /\
    orders_query Date_sample (Some (keep_closed_at shipped_acme_in_january))
    = Normal q_closed /\
    orders_query Date_sample (Some (keep_item_name shipped_acme_in_january)) = Normal q_item /\
    forall o,
      matches to_lower q o
      = verdict_and (matches to_lower q_status o)
          (verdict_and (matches to_lower q_client o)
             (verdict_and (matches to_lower q_created o)
                (verdict_and (matches to_lower q_closed o) (matches to_lower q_item o)))).
Proof.
  apply (fields_combine_by_conjunction to_lower Date_sample shipped_acme_in_january).
  reflexivity.
Defined.

(** The caseless search sees the pattern through its case folding only. *)
Lemma search_lit_folded casefold p p' t :
  map casefold p = map casefold p' ->
  search casefold true (map Lit p) t = search casefold true (map Lit p') t.
Proof.
  intros H. apply eq_true_iff_eq. rewrite !search_lit. now rewrite H.
Qed.

(** The case of the letters of a [client_name] filter does not matter.
    Take two non-empty strings with no regular-expression metacharacter and
    no NUL in them that have the same case folding, and put each as
    [client_name] into a filter with no end bound set without its start
    bound: the two queries give every order the same verdict, and when no
    other field is set that verdict is always an acceptance or a refusal,
    the same for both. *)
Theorem client_name_filter_ignores_case :
  forall (casefold : N -> N) (Date_new : jsstring -> JSDate) (f : FilterInput.t)
         (s s' : jsstring),
    plain s = true -> plain s' = true ->
    s <> [] -> s' <> [] ->
    map casefold (code_points s) = map casefold (code_points s') ->
    (bounds_paired f = true ->
     exists q q',
       orders_query Date_new (Some (with_client_name f (Some s))) = Normal q /\
       orders_query Date_new (Some (with_client_name f (Some s'))) = Normal q' /\
       forall o, matches casefold q o = matches casefold q' o) /\
    (only_client_name f ->
     exists q q',
       orders_query Date_new (Some (with_client_name f (Some s))) = Normal q /\
       orders_query Date_new (Some (with_client_name f (Some s'))) = Normal q' /\
       forall o, exists b,
           matches casefold q o = Some b /\ matches casefold q' o = Some b).
Proof.
  intros casefold Date_new f s s' Hs Hs' Hne Hne' Hfold.
  assert (Hn : name_cond (Some s) = Some {| regex := s; options := js "i" |})
    by (destruct s; [congruence | reflexivity]).
  assert (Hn' : name_cond (Some s') = Some {| regex := s'; options := js "i" |})
    by (destruct s'; [congruence | reflexivity]).
  assert (Hsame : forall subject,
             regex_search casefold {| regex := s; options := js "i" |} subject
             = regex_search casefold {| regex := s'; options := js "i" |} subject).
  { intros subject. rewrite (regex_search_plain _ _ _ Hs), (regex_search_plain _ _ _ Hs').
    now rewrite (search_lit_folded _ _ _ _ Hfold). }
  split.
  - intros Hp. rewrite !orders_query_unfold.
    change (bounds_paired (with_client_name f (Some s))) with (bounds_paired f).
    change (bounds_paired (with_client_name f (Some s'))) with (bounds_paired f).
    rewrite Hp. do 2 eexists. split; [reflexivity | split; [reflexivity |]].
    intros o. unfold matches, with_client_name.
    cbn [Query.status Query.client_name Query.created_at Query.closed_at
         Query.items_name FilterInput.status FilterInput.client_name
         FilterInput.created_at_start FilterInput.created_at_end
         FilterInput.closed_at_start FilterInput.closed_at_end FilterInput.item_name].
    rewrite Hn, Hn'. cbn [on_key]. now rewrite Hsame.
  - intros (Hst & Hcs & Hce & Hds & Hde & Hin). rewrite !orders_query_unfold.
    change (bounds_paired (with_client_name f (Some s))) with (bounds_paired f).
    change (bounds_paired (with_client_name f (Some s'))) with (bounds_paired f).
    unfold bounds_paired.
    rewrite (end_has_start_unset _ _ Hce), (end_has_start_unset _ _ Hde).
    do 2 eexists. split; [reflexivity | split; [reflexivity |]].
    intros o. unfold matches, with_client_name.
    cbn [Query.status Query.client_name Query.created_at Query.closed_at
         Query.items_name FilterInput.status FilterInput.client_name
         FilterInput.created_at_start FilterInput.created_at_end
         FilterInput.closed_at_start FilterInput.closed_at_end FilterInput.item_name].
    rewrite Hn, Hn', Hst, (name_cond_unset _ Hin),
            (merged_range_unset _ _ _ Hcs), (merged_range_unset _ _ _ Hds).
    cbn [on_key]. rewrite <- Hsame, (regex_search_plain _ _ _ Hs).
    eexists. rewrite !verdict_and_true_l, !verdict_and_true_r. split; reflexivity.
Qed.

(** On "ACME" and "acme" in the filter of shipped orders, and alone. *)
Lemma client_name_filter_ignores_case_witness :
  (exists q q',
     orders_query Date_sample
       (Some (with_client_name (keep_status shipped_acme_in_january) (Some (js "ACME"))))
     = Normal q /\
     orders_query Date_sample
       (Some (with_client_name (keep_status shipped_acme_in_january) (Some (js "acme"))))
     = Normal q' /\
     forall o, matches to_lower q o = matches to_lower q' o) /\
  (exists q q',
     orders_query Date_sample
       (Some (with_client_name FilterInput.empty (Some (js "ACME")))) = Normal q /\
     orders_query Date_sample
       (Some (with_client_name FilterInput.empty (Some (js "acme")))) = Normal q' /\
     forall o, exists b,
         matches to_lower q o = Some b /\ matches to_lower q' o = Some b).
Proof.
  split.
  - apply (client_name_filter_ignores_case to_lower Date_sample
             (keep_status shipped_acme_in_january) (js "ACME") (js "acme"));
      try reflexivity; discriminate.
  - apply (client_name_filter_ignores_case to_lower Date_sample
             FilterInput.empty (js "ACME") (js "acme"));
      try reflexivity; try discriminate.
    repeat split.
Defined.

(** With [status] set to the list [l], in a filter with no end bound set
    without its start bound, the query holds [{ $in: l }]: every matching
    order has its status in [l] and every order whose status is not in [l]
    is refused; when no other field is set, the orders whose status is in
    [l] are exactly the ones accepted. *)
Theorem status_filter_is_membership :
  forall (casefold : N -> N) (Date_new : jsstring -> JSDate) (f : FilterInput.t)
         (l : list Status),
    FilterInput.status f = Some l ->
    (bounds_paired f = true ->
     exists q,
       orders_query Date_new (Some f) = Normal q /\
       Query.status q = Some l /\
       (forall o, matches casefold q o = Some true -> In (Order.status o) l) /\
       (forall o, ~ In (Order.status o) l -> matches casefold q o = Some false)) /\
    (only_status f ->
     exists q,
       orders_query Date_new (Some f) = Normal q /\
       (forall o, In (Order.status o) l -> matches casefold q o = Some true) /\
       (forall o, ~ In (Order.status o) l -> matches casefold q o = Some false)).
Proof.
  intros casefold Date_new f l Hl. split.
  - intros Hp. rewrite orders_query_unfold, Hp, Hl.
    eexists. split; [reflexivity | split; [reflexivity | split]].
    + intros o Hm. apply matches_true in Hm. simpl in Hm.
      destruct Hm as (Hs & _). now apply match_in_true.
    + intros o Hn. apply matches_false. left. simpl. now apply match_in_false.
  - intros (Hcn & Hcs & Hce & Hds & Hde & Hin).
    rewrite orders_query_unfold. unfold bounds_paired.
    rewrite (end_has_start_unset _ _ Hce), (end_has_start_unset _ _ Hde), Hl.
    rewrite (name_cond_unset _ Hcn), (name_cond_unset _ Hin),
            (merged_range_unset _ _ _ Hcs), (merged_range_unset _ _ _ Hds). simpl.
    eexists. split; [reflexivity | split].
    + intros o Ho. apply matches_true. simpl. repeat split. now apply match_in_true.
    + intros o Hn. apply matches_false. left. simpl. now apply match_in_false.
Qed.

(** On the set of shipped and cancelled, with a client name and alone. *)
Lemma status_filter_is_membership_witness :
  (exists q,
     orders_query Date_sample
       (Some (FilterInput.mk (Some (js "acme")) (Some [shipped; cancelled])
                             None None None None None))
     = Normal q /\
     Query.status q = Some [shipped; cancelled] /\
     (forall o, matches to_lower q o = Some true ->
                In (Order.status o) [shipped; cancelled]) /\
     (forall o, ~ In (Order.status o) [shipped; cancelled] ->
                matches to_lower q o = Some false)) /\
  (exists q,
     orders_query Date_sample
       (Some (FilterInput.mk None (Some [shipped; cancelled]) None None None None None))
     = Normal q /\
     (forall o, In (Order.status o) [shipped; cancelled] ->
                matches to_lower q o = Some true) /\
     (forall o, ~ In (Order.status o) [shipped; cancelled] ->
                matches to_lower q o = Some false)).
Proof.
  split.
  - apply (status_filter_is_membership to_lower Date_sample
             (FilterInput.mk (Some (js "acme")) (Some [shipped; cancelled])
                             None None None None None)
             [shipped; cancelled] eq_refl).
    reflexivity.
  - apply (status_filter_is_membership to_lower Date_sample
             (FilterInput.mk None (Some [shipped; cancelled]) None None None None None)
             [shipped; cancelled] eq_refl).
    repeat split.
Defined.

(** The example of the specification: the set of shipped and cancelled
    accepts a shipped order and refuses an open one. *)
Example status_shipped_cancelled :
  forall q,
    orders_query Date_sample
      (Some (FilterInput.mk None (Some [shipped; cancelled]) None None None None None))
    = Normal q ->
    matches to_lower q acme_corp = Some true /\ matches to_lower q abc_order = Some false.
Proof. intros q H. vm_compute in H. injection H as <-. split; reflexivity. Qed.

(** A name field or a date bound that holds the empty string is treated as
    an absent one: on every filter, the translator gives the same result
    as on the filter with those fields taken out. *)
Theorem blank_fields_are_absent :
  forall (Date_new : jsstring -> JSDate) (f : FilterInput.t),
    orders_query Date_new (Some f) = orders_query Date_new (Some (blanks_absent f)).
Proof.
  intros Date_new f. rewrite !orders_query_unfold.
  unfold bounds_paired, end_has_start, merged_range, name_cond, blanks_absent; simpl.
  rewrite !truthy_drop_blank. reflexivity.
Qed.

(** A blank end bound does not reach the assignment of [$lte]: alone, it
    leaves the query empty. *)
Example blank_end_bound_ignored :
  orders_query Date_sample
    (Some (FilterInput.mk None None None (Some []) None (Some []) None))
  = Normal Query.empty.
Proof. reflexivity. Qed.

(** [status] set to the empty list is kept, as [{ $in: [] }]: in a filter
    with no end bound set without its start bound, the translator returns
    a query with that condition and every order is refused by it, whatever
    the other fields. *)
Theorem empty_status_matches_nothing :
  forall (casefold : N -> N) (Date_new : jsstring -> JSDate) (f : FilterInput.t),
    FilterInput.status f = Some [] ->
    bounds_paired f = true ->
    exists q,
      orders_query Date_new (Some f) = Normal q /\
      Query.status q = Some [] /\
      forall o, matches casefold q o = Some false.
Proof.
  intros casefold Date_new f Hst Hp. rewrite orders_query_unfold, Hp, Hst.
  eexists. split; [reflexivity | split; [reflexivity |]].
  intros o. apply matches_false. left. reflexivity.
Qed.

(** On the filter whose string fields are all empty and whose status list
    is empty. *)
Lemma empty_status_matches_nothing_witness :
  exists q,
    orders_query Date_sample
      (Some (FilterInput.mk (Some []) (Some []) (Some []) (Some []) (Some []) (Some [])
                            (Some [])))
    = Normal q /\
    Query.status q = Some [] /\
    forall o, matches to_lower q o = Some false.
Proof.
  apply (empty_status_matches_nothing to_lower Date_sample
           (FilterInput.mk (Some []) (Some []) (Some []) (Some []) (Some []) (Some [])
                           (Some []))); reflexivity.
Defined.

(** ** The resolver *)

(** The resolver reaches the store at most once, and only with a query the
    translator returned.  When an end bound is set without its start bound
    it rejects with the TypeError, having neither logged nor queried;
    otherwise it logs the query, queries the store once with it, and
    settles as the store does: the documents found are returned as they
    are and an error of the store is passed on, not caught.  Without a
    filter the store is queried with the empty query. *)
Theorem resolver_queries_store_once_or_never :
  forall (Date_new : jsstring -> JSDate) (Order_find : Query.t -> StoreOutcome)
         (f : FilterInput.t),
    (bounds_paired f = false ->
     orders Date_new Order_find (Some f) = (RejectedWith TypeError, [])) /\
    (bounds_paired f = true ->
     exists q,
       orders_query Date_new (Some f) = Normal q /\
       snd (orders Date_new Order_find (Some f)) = [LogQuery q; StoreFind q] /\
       (forall docs, Order_find q = Found docs ->
                     fst (orders Date_new Order_find (Some f)) = Resolved docs) /\
       (forall message, Order_find q = StoreError message ->
                        fst (orders Date_new Order_find (Some f))
                        = RejectedByStore message)) /\
    snd (orders Date_new Order_find None)
    = [LogQuery Query.empty; StoreFind Query.empty].
Proof.
  intros Date_new Order_find f. unfold orders. split; [| split].
  - intros Hp. now rewrite orders_query_unfold, Hp.
  - intros Hp. rewrite orders_query_unfold, Hp.
    eexists. split; [reflexivity |]. cbn [fst snd].
    split; [reflexivity |].
    split; [intros docs -> | intros message ->]; reflexivity.
  - reflexivity.
Qed.

(** On a lone end bound, and on January 2024 against a store that finds
    nothing. *)
Lemma resolver_queries_store_once_or_never_witness :
  orders Date_sample empty_store (Some only_created_at_end) = (RejectedWith TypeError, []) /\
  exists q,
    orders_query Date_sample (Some january) = Normal q /\
    snd (orders Date_sample empty_store (Some january)) = [LogQuery q; StoreFind q] /\
    fst (orders Date_sample empty_store (Some january)) = Resolved [].
Proof.
  destruct (resolver_queries_store_once_or_never Date_sample empty_store
              only_created_at_end) as [Hlone _].
  destruct (resolver_queries_store_once_or_never Date_sample empty_store january)
    as (_ & Hpaired & _).
  split; [apply Hlone; reflexivity |].
  destruct (Hpaired eq_refl) as (q & Hq & Hev & Hfound & _).
  exists q. split; [exact Hq | split; [exact Hev |]].
  apply Hfound. reflexivity.
Defined.

(** ** The bridge *)

Lemma clean_query_no_fence content : has_fence (clean_query content) = false.
Proof.
  unfold clean_query, strip_fences.
  rewrite replace_lf_map, occurs_fence_lf_to_space. apply delete_fences_clean.
Qed.

Lemma clean_query_no_lf content : ~ In LF (clean_query content).
Proof.
  unfold clean_query, strip_fences. rewrite replace_lf_map. apply no_lf_after_map.
Qed.

(** Reading the response either throws the TypeError or gives the cleaned
    text of a string found at [choices[0].message.content]. *)
Lemma extract_query_cases data :
  extract_query data = Throw TypeError \/
  exists content, extract_query data = Normal (JString (clean_query content)).
Proof.
  unfold extract_query, bind.
  destruct (get_prop data (js "choices")) as [choices | e] eqn:E1;
    [| left; destruct data; simpl in E1; congruence].
  destruct (get_index0 choices) as [choice | e] eqn:E2;
    [| left; destruct choices as [| | | |[|]|[|]|]; simpl in E2; congruence].
  destruct (get_prop choice (js "message")) as [message | e] eqn:E3;
    [| left; destruct choice; simpl in E3; congruence].
  destruct (get_prop message (js "content")) as [content | e] eqn:E4;
    [| left; destruct message; simpl in E4; congruence].
  destruct content; simpl; try (left; reflexivity).
  right. eexists. reflexivity.
Qed.

(** The two ways the bridge ends. *)
Lemma bridge_cases w userInput :
  (exists error,
      generateGraphQLQuery w userInput
      = (Normal JNull,
         [CompletionRequest userInput;
          ConsoleError (js "Error generating GraphQL query:") error])) \/
  (exists content,
      generateGraphQLQuery w userInput
      = (Normal (JString (clean_query content)), [CompletionRequest userInput])).
Proof.
  unfold generateGraphQLQuery.
  destruct (completion_api w userInput) as [data | e]; simpl bind.
  - destruct (extract_query_cases data) as [H | [content H]]; rewrite H.
    + left. eexists. reflexivity.
    + right. eexists. reflexivity.
  - left. eexists. reflexivity.
Qed.

(** The bridge makes one request to the completion API, carrying the user
    input as it came, and resolves either with [null], after logging one
    error, or with a string that holds no run of three backticks and no
    line feed, having logged nothing.  It resolves with nothing else. *)
Theorem bridge_resolves_with_null_or_clean_string :
  forall (w : Services) (userInput : JSValue),
    exists v rest,
      generateGraphQLQuery w userInput = (Normal v, CompletionRequest userInput :: rest) /\
      ((v = JNull /\
        exists error, rest = [ConsoleError (js "Error generating GraphQL query:") error]) \/
       (rest = [] /\
        exists s, v = JString s /\ has_fence s = false /\ ~ In LF s)).
Proof.
  intros w userInput.
  destruct (bridge_cases w userInput) as [[error H] | [content H]]; rewrite H.
  - do 2 eexists. split; [reflexivity |]. left. split; [reflexivity |].
    eexists. reflexivity.
  - do 2 eexists. split; [reflexivity |]. right. split; [reflexivity |].
    exists (clean_query content).
    split; [reflexivity | split; [apply clean_query_no_fence | apply clean_query_no_lf]].
Qed.

(** A response body that is an object without [choices], or whose
    [choices] is the empty array, such as the error body of the completion
    API, is not an answer: the bridge logs the TypeError met on the way to
    the text and resolves with [null]. *)
Theorem response_without_choice_gives_null :
  forall (w : Services) (userInput : JSValue) (fields : list (jsstring * JSValue)),
    completion_api w userInput = Normal (JObject fields) ->
    lookup (js "choices") fields = None \/ lookup (js "choices") fields = Some (JArray []) ->
    generateGraphQLQuery w userInput
    = (Normal JNull,
       [CompletionRequest userInput;
        ConsoleError (js "Error generating GraphQL query:") TypeError]).
Proof.
  intros w userInput fields Hdata Hchoices.
  unfold generateGraphQLQuery. rewrite Hdata. simpl bind.
  unfold extract_query, get_prop.
  destruct Hchoices as [-> | ->]; reflexivity.
Qed.

(** On the error body [{ error: "quota" }]. *)
Lemma response_without_choice_gives_null_witness :
  generateGraphQLQuery no_choices_services (JString (js "orders that are shipped"))
  = (Normal JNull,
     [CompletionRequest (JString (js "orders that are shipped"));
      ConsoleError (js "Error generating GraphQL query:") TypeError]).
Proof.
  apply (response_without_choice_gives_null no_choices_services
           (JString (js "orders that are shipped"))
           [(js "error", JString (js "quota"))] eq_refl).
  left. reflexivity.
Defined.

(** ** The handlers *)

(** A [userInput] that is present but falsy ([null], [false], [0] or the
    empty string) is refused like a missing one: both handlers answer 400
    with [{ error: "User input is required" }], and nothing is called or
    logged. *)
Theorem falsy_user_input_is_refused :
  forall (w : Services) (fields : list (jsstring * JSValue)) (userInput : JSValue),
    lookup (js "userInput") fields = Some userInput ->
    is_truthy userInput = false ->
    generate_query w (JObject fields)
    = (Normal (status_send 400 (error_body "User input is required")), []) /\
    fetch_orders w (JObject fields)
    = (Normal (status_send 400 (error_body "User input is required")), []).
Proof.
  intros w fields userInput Hu Hf.
  unfold generate_query, fetch_orders, get_prop. rewrite Hu, Hf. split; reflexivity.
Qed.

(** On [{ userInput: "" }]. *)
Lemma falsy_user_input_is_refused_witness :
  generate_query working_services (JObject [(js "userInput", JString [])])
  = (Normal (status_send 400 (error_body "User input is required")), []) /\
  fetch_orders working_services (JObject [(js "userInput", JString [])])
  = (Normal (status_send 400 (error_body "User input is required")), []).
Proof.
  apply (falsy_user_input_is_refused working_services
           [(js "userInput", JString [])] (JString [])); reflexivity.
Defined.

Lemma is_truthy_string s : s <> [] -> is_truthy (JString s) = true.
Proof. destruct s; [congruence | reflexivity]. Qed.

(** When the completion API answers a well-formed response whose text
    cleans to a non-empty string, /generate-query answers 200 with
    [{ graphqlQuery }] holding the cleaned text, which has no run of three
    backticks and no line feed, after one request to the completion API
    and nothing else. *)
Theorem generate_query_answers_cleaned_text :
  forall (w : Services) (fields : list (jsstring * JSValue)) (userInput : JSValue)
         (content : jsstring),
    lookup (js "userInput") fields = Some userInput ->
    is_truthy userInput = true ->
    completion_api w userInput = Normal (completion_body content) ->
    clean_query content <> [] ->
    generate_query w (JObject fields)
    = (Normal (send (JObject [(js "graphqlQuery", JString (clean_query content))])),
       [CompletionRequest userInput]) /\
    has_fence (clean_query content) = false /\
    ~ In LF (clean_query content).
Proof.
  intros w fields userInput content Hu Ht Hc Hne.
  split; [| split; [apply clean_query_no_fence | apply clean_query_no_lf]].
  unfold generate_query, get_prop. rewrite Hu, Ht. cbn [negb].
  rewrite (generateGraphQLQuery_success _ _ _ Hc), (is_truthy_string _ Hne).
  reflexivity.
Qed.

(** On the fenced completion. *)
Lemma generate_query_answers_cleaned_text_witness :
  generate_query working_services (JObject shipped_request)
  = (Normal (send (JObject [(js "graphqlQuery",
                             JString (clean_query fenced_completion))])),
     [CompletionRequest (JString (js "orders that are shipped"))]) /\
  has_fence (clean_query fenced_completion) = false /\
  ~ In LF (clean_query fenced_completion).
Proof.
  apply (generate_query_answers_cleaned_text working_services shipped_request
           (JString (js "orders that are shipped")) fenced_completion);
    try reflexivity.
  vm_compute. discriminate.
Defined.

Lemma trim_start_blank s : forallb is_whitespace s = true -> trim_start s = [].
Proof.
  induction s as [|c s IH]; simpl; [reflexivity |].
  intros H. apply andb_true_iff in H. destruct H as [Hc Hs]. rewrite Hc. auto.
Qed.

Lemma clean_query_blank content :
  forallb is_whitespace content = true -> clean_query content = [].
Proof.
  intros H. unfold clean_query, trim. rewrite (trim_start_blank _ H). reflexivity.
Qed.

(** A completion made of whitespace only is a failure: its text cleans to
    the empty string, which is falsy, so both handlers answer 500 with
    [{ error: "Failed to generate GraphQL query" }], and /fetch-orders does
    not call the GraphQL endpoint. *)
Theorem blank_completion_is_a_failure :
  forall (w : Services) (fields : list (jsstring * JSValue)) (userInput : JSValue)
         (content : jsstring),
    lookup (js "userInput") fields = Some userInput ->
    is_truthy userInput = true ->
    completion_api w userInput = Normal (completion_body content) ->
    forallb is_whitespace content = true ->
    generate_query w (JObject fields)
    = (Normal (status_send 500 (error_body "Failed to generate GraphQL query")),
       [CompletionRequest userInput]) /\
    fetch_orders w (JObject fields)
    = (Normal (status_send 500 (error_body "Failed to generate GraphQL query")),
       [CompletionRequest userInput]).
Proof.
  intros w fields userInput content Hu Ht Hc Hblank.
  unfold generate_query, fetch_orders, get_prop. rewrite Hu, Ht. cbn [negb].
  rewrite (generateGraphQLQuery_success _ _ _ Hc), (clean_query_blank _ Hblank).
  split; reflexivity.
Qed.

(** On a completion of two spaces and a line feed. *)
Lemma blank_completion_is_a_failure_witness :
  generate_query blank_completion_services (JObject shipped_request)
  = (Normal (status_send 500 (error_body "Failed to generate GraphQL query")),
     [CompletionRequest (JString (js "orders that are shipped"))]) /\
  fetch_orders blank_completion_services (JObject shipped_request)
  = (Normal (status_send 500 (error_body "Failed to generate GraphQL query")),
     [CompletionRequest (JString (js "orders that are shipped"))]).
Proof.
  apply (blank_completion_is_a_failure blank_completion_services shipped_request
           (JString (js "orders that are shipped")) (js "  " ++ [LF]));
    reflexivity.
Defined.

(** /fetch-orders executes the cleaned text and nothing else.  When the
    completion API answers a well-formed response whose text cleans to a
    non-empty string, the handler logs that string and posts it to the
    GraphQL endpoint; it relays the body of the answer as [{ data }] with
    status 200, and when that call fails it logs the error and answers 500
    with [{ error: "Failed to fetch orders" }]. *)
Theorem fetch_orders_executes_cleaned_text :
  forall (w : Services) (fields : list (jsstring * JSValue)) (userInput : JSValue)
         (content : jsstring),
    lookup (js "userInput") fields = Some userInput ->
    is_truthy userInput = true ->
    completion_api w userInput = Normal (completion_body content) ->
    clean_query content <> [] ->
    (forall data,
        graphql_api w (JString (clean_query content)) = Normal data ->
        fetch_orders w (JObject fields)
        = (Normal (send (JObject [(js "data", data)])),
           [CompletionRequest userInput;
            ConsoleLog (js "Generated GraphQL Query:") (JString (clean_query content));
            GraphQLRequest (JString (clean_query content))])) /\
    (forall error,
        graphql_api w (JString (clean_query content)) = Throw error ->
        fetch_orders w (JObject fields)
        = (Normal (status_send 500 (error_body "Failed to fetch orders")),
           [CompletionRequest userInput;
            ConsoleLog (js "Generated GraphQL Query:") (JString (clean_query content));
            GraphQLRequest (JString (clean_query content));
            ConsoleError (js "Error in fetching orders:") error])).
Proof.
  intros w fields userInput content Hu Ht Hc Hne.
  unfold fetch_orders, get_prop. rewrite Hu, Ht. cbn [negb].
  rewrite (generateGraphQLQuery_success _ _ _ Hc), (is_truthy_string _ Hne).
  cbn [negb]. split.
  - intros data ->. reflexivity.
  - intros error ->. reflexivity.
Qed.

(** On a working GraphQL endpoint and on one that refuses the connection. *)
Lemma fetch_orders_executes_cleaned_text_witness :
  fetch_orders working_services (JObject shipped_request)
  = (Normal (send (JObject [(js "data", JObject [(js "data", JNull)])])),
     [CompletionRequest (JString (js "orders that are shipped"));
      ConsoleLog (js "Generated GraphQL Query:") (JString (clean_query fenced_completion));
      GraphQLRequest (JString (clean_query fenced_completion))]) /\
  fetch_orders graphql_down_services (JObject shipped_request)
  = (Normal (status_send 500 (error_body "Failed to fetch orders")),
     [CompletionRequest (JString (js "orders that are shipped"));
      ConsoleLog (js "Generated GraphQL Query:") (JString (clean_query fenced_completion));
      GraphQLRequest (JString (clean_query fenced_completion));
      ConsoleError (js "Error in fetching orders:")
                   (AxiosError (js "connect ECONNREFUSED"))]).
Proof.
  assert (Hne : clean_query fenced_completion <> []) by (vm_compute; discriminate).
  split.
  - apply (fetch_orders_executes_cleaned_text working_services shipped_request
             (JString (js "orders that are shipped")) fenced_completion
             eq_refl eq_refl eq_refl Hne).
    reflexivity.
  - apply (fetch_orders_executes_cleaned_text graphql_down_services shipped_request
             (JString (js "orders that are shipped")) fenced_completion
             eq_refl eq_refl eq_refl Hne).
    reflexivity.
Defined.

(** Whatever the services do, each handler answers a request whose body is
    an object, with status 200, 400 or 500 and no other, and the body of
    the answer has an [error] field exactly when the status is not 200. *)
Theorem handlers_always_answer :
  forall (w : Services) (fields : list (jsstring * JSValue)),
    (exists r evs,
        generate_query w (JObject fields) = (Normal r, evs) /\
        (status_code r = 200 \/ status_code r = 400 \/ status_code r = 500) /\
        (has_error_field (body r) = true <-> status_code r <> 200)) /\
    (exists r evs,
        fetch_orders w (JObject fields) = (Normal r, evs) /\
        (status_code r = 200 \/ status_code r = 400 \/ status_code r = 500) /\
        (has_error_field (body r) = true <-> status_code r <> 200)).
Proof.
  intros w fields.
  assert (H200 : forall key v,
             jsstring_eqb key (js "error") = false ->
             (has_error_field (body (send (JObject [(key, v)]))) = true
              <-> status_code (send (JObject [(key, v)])) <> 200)).
  { intros key v Hk. simpl. rewrite Hk. split; [discriminate | congruence]. }
  assert (Herr : forall code msg,
             code <> 200 ->
             (has_error_field (body (status_send code (error_body msg))) = true
              <-> status_code (status_send code (error_body msg)) <> 200)).
  { intros code msg Hc. split; [intros _; exact Hc | reflexivity]. }
  unfold generate_query, fetch_orders, get_prop.
  destruct (lookup (js "userInput") fields) as [userInput |].
  2: { split; do 2 eexists; (split; [reflexivity |]);
       (split; [right; left; reflexivity | apply Herr; discriminate]). }
  destruct (is_truthy userInput); cbn [negb].
  2: { split; do 2 eexists; (split; [reflexivity |]);
       (split; [right; left; reflexivity | apply Herr; discriminate]). }
  destruct (bridge_cases w userInput) as [[error H] | [content H]]; rewrite H.
  - split; do 2 eexists; (split; [reflexivity |]);
      (split; [right; right; reflexivity | apply Herr; discriminate]).
  - destruct (is_truthy (JString (clean_query content))); cbn [negb].
    + split.
      * do 2 eexists. split; [reflexivity |].
        split; [left; reflexivity | now apply H200].
      * destruct (graphql_api w (JString (clean_query content))).
        -- do 2 eexists. split; [reflexivity |].
           split; [left; reflexivity | now apply H200].
        -- do 2 eexists. split; [reflexivity |].
           split; [right; right; reflexivity | apply Herr; discriminate].
    + split; do 2 eexists; (split; [reflexivity |]);
        (split; [right; right; reflexivity | apply Herr; discriminate]).
Qed.

(** What /fetch-orders posts to the GraphQL endpoint is what the bridge
    resolved with for the user input of the request, and it is a non-empty
    string without a run of three backticks and without a line feed;
    /generate-query posts nothing to the GraphQL endpoint. *)
Theorem graphql_request_carries_bridge_output :
  forall (w : Services) (fields : list (jsstring * JSValue)) (query : JSValue),
    (In (GraphQLRequest query) (snd (fetch_orders w (JObject fields))) ->
     exists userInput s,
       lookup (js "userInput") fields = Some userInput /\
       is_truthy userInput = true /\
       fst (generateGraphQLQuery w userInput) = Normal query /\
       query = JString s /\ s <> [] /\ has_fence s = false /\ ~ In LF s) /\
    ~ In (GraphQLRequest query) (snd (generate_query w (JObject fields))).
Proof.
  intros w fields query.
  unfold generate_query, fetch_orders, get_prop.
  destruct (lookup (js "userInput") fields) as [userInput |] eqn:Hu;
    [| split; [intros [] | intros []]].
  destruct (is_truthy userInput) eqn:Ht; cbn [negb];
    [| split; [intros [] | intros []]].
  destruct (bridge_cases w userInput) as [[error H] | [content H]]; rewrite H.
  - cbn. split; [intros [Hin | [Hin | []]]; discriminate Hin
                | intros [Hin | [Hin | []]]; discriminate Hin].
  - pose proof (clean_query_no_fence content) as Hfence.
    pose proof (clean_query_no_lf content) as Hlf.
    destruct (clean_query content) as [|c s]; cbn [is_truthy negb].
    + cbn. split; [intros [Hin | []]; discriminate Hin
                  | intros [Hin | []]; discriminate Hin].
    + split.
      * intros Hin.
        assert (Hq : query = JString (c :: s)).
        { destruct (graphql_api w (JString (c :: s))); cbn in Hin;
            repeat (destruct Hin as [Hin | Hin]; try discriminate Hin;
                    try (injection Hin as <-; reflexivity));
            contradiction. }
        subst query. exists userInput, (c :: s).
        split; [first [reflexivity | assumption] |].
        split; [first [reflexivity | assumption] |].
        split; [rewrite H; reflexivity |].
        split; [reflexivity |]. split; [discriminate |].
        split; assumption.
      * cbn. intros [Hin | []]. discriminate Hin.
Qed.

(** On the request met by working services. *)
Lemma graphql_request_carries_bridge_output_witness :
  exists userInput s,
    lookup (js "userInput") shipped_request = Some userInput /\
    is_truthy userInput = true /\
    fst (generateGraphQLQuery working_services userInput)
    = Normal (JString (clean_query fenced_completion)) /\
    JString (clean_query fenced_completion) = JString s /\
    s <> [] /\ has_fence s = false /\ ~ In LF s.
Proof.
  destruct (graphql_request_carries_bridge_output working_services shipped_request
              (JString (clean_query fenced_completion))) as [H _].
  apply H. cbn. right. right. left. reflexivity.
Defined.

(** ** The cleaning *)

Lemma starts_with_app_r pat s post :
  starts_with pat s = true -> starts_with pat (s ++ post) = true.
Proof.
  revert s. induction pat as [|p pat IH]; intros s; [reflexivity |].
  destruct s as [|c s]; [discriminate |]. cbn [starts_with app].
  rewrite !andb_true_iff. intros [Hc Hs]. split; [assumption | now apply IH].
Qed.

Lemma occurs_middle pat pre s post :
  occurs pat s = true -> occurs pat (pre ++ s ++ post) = true.
Proof.
  intros H. induction pre as [|c pre IH].
  - cbn [app]. induction s as [|c s IH]; cbn [app].
    + destruct pat; [destruct post; reflexivity | discriminate H].
    + rewrite occurs_cons in *. apply orb_true_iff in H. apply orb_true_iff.
      destruct H as [H | H].
      * left. now apply (starts_with_app_r pat (c :: s) post).
      * right. now apply IH.
  - cbn [app]. rewrite occurs_cons, IH. apply orb_true_r.
Qed.

Lemma length_replace_all_delete pat s :
  (List.length (replace_all pat [] s) <= List.length s)%nat.
Proof.
  induction s as [|c s Hhit IH|c s Hmiss IH] using (scan_ind pat).
  - auto.
  - rewrite replace_all_cons, Hhit. cbn [app List.length].
    rewrite length_skipn in IH. lia.
  - rewrite replace_all_cons, Hmiss. cbn [List.length]. lia.
Qed.

(** The cleaning never lengthens the text. *)
Theorem clean_query_never_longer :
  forall content : jsstring,
    (List.length (clean_query content) <= List.length content)%nat.
Proof.
  intros content. unfold clean_query, strip_fences.
  rewrite replace_lf_map, length_map.
  pose proof (length_replace_all_delete (js "```")
                (replace_all (js "```graphql") [] (trim content))) as H1.
  pose proof (length_replace_all_delete (js "```graphql") (trim content)) as H2.
  destruct (trim_split content) as [pre [post Hs]].
  apply (f_equal (@List.length N)) in Hs. rewrite !length_app in Hs. lia.
Qed.

(** A text without fence and without line feed goes through the three
    replacements unchanged. *)
Lemma strip_fences_fixed t :
  has_fence t = false -> ~ In LF t -> strip_fences t = t.
Proof.
  intros Hfence Hlf. unfold strip_fences.
  rewrite (replace_all_absent (js "```graphql") [] t)
    by now apply no_fence_no_graphql_fence.
  rewrite (replace_all_absent (js "```") [] t) by exact Hfence.
  now rewrite (replace_all_absent [LF] (js " ") t) by now apply occurs_lf.
Qed.

(** Cleaning a cleaned text again only trims it: the three replacements
    find nothing more to do, on the cleaned text itself and on its trimmed
    form. *)
Theorem cleaning_again_only_trims :
  forall content : jsstring,
    strip_fences (clean_query content) = clean_query content /\
    clean_query (clean_query content) = trim (clean_query content).
Proof.
  intros content.
  pose proof (clean_query_no_fence content) as Hfence.
  pose proof (clean_query_no_lf content) as Hlf.
  split; [now apply strip_fences_fixed |].
  unfold clean_query at 1. apply strip_fences_fixed.
  - destruct (has_fence (trim (clean_query content))) eqn:E; [| reflexivity].
    destruct (trim_split (clean_query content)) as [pre [post Hs]].
    unfold has_fence in *.
    apply (occurs_middle _ pre _ post) in E. rewrite <- Hs in E. congruence.
  - intros Hin. apply Hlf.
    destruct (trim_split (clean_query content)) as [pre [post Hs]].
    rewrite Hs. apply in_or_app. right. apply in_or_app. now left.
Qed.

Lemma no_backtick_no_fence t : ~ In BACKTICK t -> has_fence t = false.
Proof.
  unfold has_fence. induction t as [|c t IH]; [reflexivity |].
  intros H. rewrite occurs_cons. apply orb_false_iff. split.
  - rewrite fence_code. cbn [starts_with]. apply andb_false_iff. left.
    apply N.eqb_neq. intros E. apply H. left. now symmetry.
  - apply IH. intros Hin. apply H. now right.
Qed.

(** A completion without any backtick comes out trimmed, with each line
    feed turned into a space and nothing else changed. *)
Theorem text_without_backtick_keeps_its_characters :
  forall content : jsstring,
    ~ In BACKTICK (trim content) ->
    clean_query content = map lf_to_space (trim content) /\
    List.length (clean_query content) = List.length (trim content).
Proof.
  intros content H.
  assert (Heq : clean_query content = map lf_to_space (trim content)).
  { unfold clean_query, strip_fences.
    pose proof (no_backtick_no_fence _ H) as Hfence.
    rewrite (replace_all_absent (js "```graphql") [] (trim content))
      by now apply no_fence_no_graphql_fence.
    rewrite (replace_all_absent (js "```") [] (trim content)) by exact Hfence.
    apply replace_lf_map. }
  split; [exact Heq | now rewrite Heq, length_map].
Qed.

(** On a two-line query with spaces around it. *)
Lemma text_without_backtick_keeps_its_characters_witness :
  clean_query (js "  query {" ++ [LF] ++ js "orders { id } }  ")
  = map lf_to_space (trim (js "  query {" ++ [LF] ++ js "orders { id } }  ")) /\
  List.length (clean_query (js "  query {" ++ [LF] ++ js "orders { id } }  "))
  = List.length (trim (js "  query {" ++ [LF] ++ js "orders { id } }  ")).
Proof.
  apply (text_without_backtick_keeps_its_characters
           (js "  query {" ++ [LF] ++ js "orders { id } }  ")).
  vm_compute. intros H. repeat (destruct H as [H | H]; [discriminate H |]). exact H.
Defined.

(** A replacement leaves alone the characters that are neither in the
    pattern nor in what replaces it. *)
Lemma replace_all_count pat rep s c :
  pat <> [] -> ~ In c pat -> ~ In c rep ->
  count_occ N.eq_dec (replace_all pat rep s) c = count_occ N.eq_dec s c.
Proof.
  intros Hne Hpat Hrep.
  destruct pat as [|p pat]; [congruence |].
  induction s as [|c0 s Hhit IH|c0 s Hmiss IH] using (scan_ind (p :: pat)).
  - reflexivity.
  - rewrite replace_all_cons, Hhit, count_occ_app, IH.
    rewrite (proj1 (count_occ_not_In N.eq_dec rep c) Hrep).
    pose proof (starts_with_prefix _ _ Hhit) as Hsplit.
    cbn [List.length skipn] in Hsplit. cbn [List.length].
    replace (S (List.length pat) - 1)%nat with (List.length pat) by lia.
    rewrite Hsplit, count_occ_app.
    now rewrite (proj1 (count_occ_not_In N.eq_dec (p :: pat) c) Hpat).
  - rewrite replace_all_cons, Hmiss. cbn [count_occ]. rewrite IH. reflexivity.
Qed.

Lemma untouched_not_in c l :
  existsb (N.eqb c) l = false -> ~ In c l.
Proof.
  intros H Hin.
  assert (existsb (N.eqb c) l = true) as Ht
      by (apply existsb_exists; exists c; split; [assumption | apply N.eqb_refl]).
  congruence.
Qed.

(** The cleaning deletes and writes nothing but backticks, the letters of
    "graphql", line feeds and spaces: every other character, a carriage
    return or a brace for instance, occurs in the cleaned text as many
    times as in the trimmed one. *)
Theorem cleaning_keeps_other_characters :
  forall (content : jsstring) (c : N),
    touched_by_cleaning c = false ->
    count_occ N.eq_dec (clean_query content) c = count_occ N.eq_dec (trim content) c.
Proof.
  intros content c Hc. unfold touched_by_cleaning in Hc.
  pose proof (untouched_not_in _ _ Hc) as Hnot.
  assert (Hgraphql : ~ In c (js "```graphql"))
    by (intros Hin; apply Hnot; vm_compute in Hin |- *; tauto).
  assert (Hfence : ~ In c (js "```"))
    by (intros Hin; apply Hnot; vm_compute in Hin |- *; tauto).
  assert (Hlf : ~ In c [LF])
    by (intros Hin; apply Hnot; vm_compute in Hin |- *; tauto).
  assert (Hspace : ~ In c (js " "))
    by (intros Hin; apply Hnot; vm_compute in Hin |- *; tauto).
  unfold clean_query, strip_fences.
  rewrite (replace_all_count [LF] (js " ")); [| discriminate | exact Hlf | exact Hspace].
  rewrite (replace_all_count (js "```") []);
    [| vm_compute; discriminate | exact Hfence | intros []].
  rewrite (replace_all_count (js "```graphql") []);
    [| vm_compute; discriminate | exact Hgraphql | intros []].
  reflexivity.
Qed.

(** On the carriage returns of a text with Windows line ends. *)
Lemma cleaning_keeps_other_characters_witness :
  count_occ N.eq_dec
    (clean_query (js "```graphql" ++ [13%N; LF] ++ js "query" ++ [13%N; LF] ++ js "```"))
    13%N
  = count_occ N.eq_dec
      (trim (js "```graphql" ++ [13%N; LF] ++ js "query" ++ [13%N; LF] ++ js "```"))
      13%N.
Proof.
  apply (cleaning_keeps_other_characters
           (js "```graphql" ++ [13%N; LF] ++ js "query" ++ [13%N; LF] ++ js "```") 13%N).
  reflexivity.
Defined.
